(** * Operation generation for the declarative schema changer

    A shallow embedding of [pkg/sql/schemachanger/scplan/internal/opgen/op_funcs.go]:
    the target index ([makeTargetsWithElementMap]), the compiler of operation
    functions ([checkOpFunc], [makeOpsFunc]) with the dispatcher it returns, and
    the event builders ([newLogEventBase], [newLogEventOp],
    [statementForDropJob]).

    Go constructs are modelled as follows.
    - A [panic] is the [Panics] outcome; a returned [error] is the [Err] result.
    - [errors.Errorf] and [errors.AssertionFailedf] keep their format string and
      their arguments, unformatted.
    - [reflect.Type] is a first-order description of a Go type; the method sets
      of types are declared in packages outside this file and are a parameter
      ([implements]).
    - Candidate operation functions are values of type [interface{}] with a
      dynamic type; a function value carries its implementation.
    - Protocol buffer messages live in a heap of cells, so that copies and
      sharing can be told apart. *)

From stdpp Require Import gmap strings list fin_maps.
From Stdlib Require Import ZArith NArith.

Local Open Scope string_scope.
Local Open Scope list_scope.

(** ** Package [reflect] *)

Module reflect.

(** [reflect.Kind]. *)
Inductive Kind : Set :=
| Invalid | Bool | Int | Int8 | Int16 | Int32 | Int64
| Uint | Uint8 | Uint16 | Uint32 | Uint64 | Uintptr
| Float32 | Float64 | Complex64 | Complex128
| Array | Chan | Func | Interface | Map | Ptr | Slice | String_ | Struct
| UnsafePointer.

#[global] Instance Kind_eq_dec : EqDecision Kind.
Proof. solve_decision. Defined.

(** The kinds of the types that are not described further: predeclared types,
    and struct, interface, map, channel, array and slice types, which are told
    apart by name only. *)
Inductive Leaf : Set :=
| LBool | LInt | LInt32 | LInt64 | LUint32 | LUint64 | LFloat64 | LString
| LStruct | LInterface | LMap | LChan | LArray | LSlice.

#[global] Instance Leaf_eq_dec : EqDecision Leaf.
Proof. solve_decision. Defined.

Definition Leaf_Kind (l : Leaf) : Kind :=
  match l with
  | LBool => Bool | LInt => Int | LInt32 => Int32 | LInt64 => Int64
  | LUint32 => Uint32 | LUint64 => Uint64 | LFloat64 => Float64
  | LString => String_ | LStruct => Struct | LInterface => Interface
  | LMap => Map | LChan => Chan | LArray => Array | LSlice => Slice
  end.

(** [reflect.Type]: two values are equal exactly when they describe the same
    Go type. *)
#[warnings="-register-all"]
Inductive Type_ : Set :=
| Atom (name : string) (l : Leaf)
| PtrTo (elem : Type_)
| FuncOf (ins outs : list Type_)
| Defined (name : string) (underlying : Type_).

Fixpoint eqb (t u : Type_) {struct t} : bool :=
  let fix eqbs (ts us : list Type_) {struct ts} : bool :=
    match ts, us with
    | [], [] => true
    | t' :: ts', u' :: us' => eqb t' u' && eqbs ts' us'
    | _, _ => false
    end in
  match t, u with
  | Atom n l, Atom n' l' => bool_decide (n = n') && bool_decide (l = l')
  | PtrTo e, PtrTo e' => eqb e e'
  | FuncOf i o, FuncOf i' o' => eqbs i i' && eqbs o o'
  | Defined n t', Defined n' u' => bool_decide (n = n') && eqb t' u'
  | _, _ => false
  end.

Definition eqbs : list Type_ -> list Type_ -> bool :=
  fix eqbs (ts us : list Type_) {struct ts} : bool :=
    match ts, us with
    | [], [] => true
    | t' :: ts', u' :: us' => eqb t' u' && eqbs ts' us'
    | _, _ => false
    end.

Lemma Type_nested_ind (P : Type_ -> Prop) :
  (forall n l, P (Atom n l)) ->
  (forall e, P e -> P (PtrTo e)) ->
  (forall i o, Forall P i -> Forall P o -> P (FuncOf i o)) ->
  (forall n u, P u -> P (Defined n u)) ->
  forall t, P t.
Proof.
  intros HA HP HF HD. fix IH 1. intros [n l|e|i o|n u].
  - apply HA.
  - apply HP, IH.
  - apply HF.
    + induction i as [|t i IHi]; constructor; [apply IH | exact IHi].
    + induction o as [|t o IHo]; constructor; [apply IH | exact IHo].
  - apply HD, IH.
Qed.

Lemma eqbs_eq (ts us : list Type_) :
  Forall (fun t => forall u, eqb t u = true <-> t = u) ts ->
  eqbs ts us = true <-> ts = us.
Proof.
  intros H. revert us. induction H as [|t ts Ht _ IH]; intros [|u us]; simpl;
    try (split; [discriminate | congruence]); try tauto.
  rewrite andb_true_iff, Ht, IH. split; [intros [-> ->]; reflexivity|].
  intros E; inversion E; auto.
Qed.

Lemma eqb_eq (t u : Type_) : eqb t u = true <-> t = u.
Proof.
  revert u. induction t as [n l|e IH|i o IHi IHo|n t IH] using Type_nested_ind;
    intros [n' l'|e'|i' o'|n' u']; simpl;
    try (split; [discriminate | congruence]).
  - rewrite andb_true_iff, !bool_decide_eq_true. split; [intros [-> ->]|intros E; inversion E]; auto.
  - rewrite IH. split; congruence.
  - change (eqbs i i' && eqbs o o' = true <-> FuncOf i o = FuncOf i' o').
    rewrite andb_true_iff, (eqbs_eq i i' IHi), (eqbs_eq o o' IHo).
    split; [intros [-> ->]|intros E; inversion E]; auto.
  - rewrite andb_true_iff, bool_decide_eq_true, IH.
    split; [intros [-> ->]|intros E; inversion E]; auto.
Qed.

Lemma eqb_neq (t u : Type_) : eqb t u = false -> t <> u.
Proof. intros H E. apply eqb_eq in E. congruence. Qed.

#[global] Instance Type_eq_dec : EqDecision Type_ := fun t u =>
  match eqb t u as b return eqb t u = b -> Decision (t = u) with
  | true => fun H => left (proj1 (eqb_eq t u) H)
  | false => fun H => right (eqb_neq t u H)
  end eq_refl.

(** [t.Kind()]. *)
Fixpoint Kind_of (t : Type_) : Kind :=
  match t with
  | Atom _ l => Leaf_Kind l
  | PtrTo _ => Ptr
  | FuncOf _ _ => Func
  | Defined _ u => Kind_of u
  end.

(** The parameter and result types of a type of kind [Func]. *)
Fixpoint ins_of (t : Type_) : list Type_ :=
  match t with
  | FuncOf i _ => i
  | Defined _ u => ins_of u
  | _ => []
  end.

Fixpoint outs_of (t : Type_) : list Type_ :=
  match t with
  | FuncOf _ o => o
  | Defined _ u => outs_of u
  | _ => []
  end.

(** [t.NumIn()], [t.In(i)], [t.NumOut()], [t.Out(i)]. The source calls them
    only after it has checked the kind and the count, so the panics of the Go
    library on other uses are never reached; [In] and [Out] give [None] there. *)
Definition NumIn (t : Type_) : nat := length (ins_of t).
Definition In (t : Type_) (i : nat) : option Type_ := ins_of t !! i.
Definition NumOut (t : Type_) : nat := length (outs_of t).
Definition Out (t : Type_) (i : nat) : option Type_ := outs_of t !! i.

End reflect.

(** ** Messages in memory *)

Module proto.

Definition loc := positive.

(** A field of a struct in memory: a number, a string (immutable in Go), a nil
    reference, or a reference (a pointer, or the array behind a slice) to a
    cell of the heap. *)
Inductive field : Set :=
| Scalar (z : Z)
| Str (s : string)
| Nil
| Ref (l : loc).

(** A struct value is the sequence of its fields; the heap maps a location to
    the struct stored there. *)
Definition object := list field.
Abbreviation heap := (gmap loc object).

(** What a struct value stands for once every reference is followed. *)
#[warnings="-register-all"]
Inductive tree : Set :=
| TScalar (z : Z)
| TStr (s : string)
| TNil
| TNode (fields : list tree).

(** The tree of a field, given what a reference stands for. *)
Definition field_tree (follow : loc -> option tree) (f : field) : option tree :=
  match f with
  | Scalar z => Some (TScalar z)
  | Str s => Some (TStr s)
  | Nil => Some TNil
  | Ref l => follow l
  end.

Fixpoint fields_tree (follow : loc -> option tree) (o : object) : option (list tree) :=
  match o with
  | [] => Some []
  | f :: o' =>
      match field_tree follow f, fields_tree follow o' with
      | Some t, Some ts => Some (t :: ts)
      | _, _ => None
      end
  end.

(** [content depth h o]: the tree of the struct value [o] in the heap [h],
    following at most [depth] references in a row. [None] when a chain of
    references is longer, or a reference has no cell. *)
Fixpoint content (depth : nat) (h : heap) (o : object) : option (list tree) :=
  fields_tree
    (fun l =>
       match depth with
       | O => None
       | S depth' =>
           match h !! l with
           | Some c => TNode <$> content depth' h c
           | None => None
           end
       end) o.

(** [proto.Message]: a Go struct type whose values are copied by [Clone];
    [fields] are the fields that may hold references and [with_fields] puts
    other fields in their place. *)
Class Message (A : Type) := {
  fields : A -> object;
  with_fields : A -> object -> A;
}.

End proto.

(** ** Package [scpb] *)

Module scpb.
Import proto.

(** Modelled from the spec: [scpb.Element], an interface that the generated
    message types implement by pointer. A value is the name of the struct type
    and the address of the struct; two values are equal, as keys of a Go map,
    when both agree. *)
Record Element : Set := mkElement {
  Element_struct : string;
  Element_ptr : loc;
}.

#[global] Instance Element_eq_dec : EqDecision Element.
Proof. solve_decision. Defined.

#[global] Instance Element_countable : Countable Element.
Proof.
  apply (inj_countable' (fun e => (Element_struct e, Element_ptr e))
                        (fun p => mkElement p.1 p.2)).
  intros []; reflexivity.
Defined.

(** [reflect.TypeOf(e)]. *)
Definition TypeOf (e : Element) : reflect.Type_ :=
  reflect.PtrTo (reflect.Atom (Element_struct e) reflect.LStruct).

(** Modelled from the spec: [scpb.Status], an enumeration, by its number. *)
Definition Status := Z.

(** Modelled from the spec: [scpb.TargetMetadata]. The source reads the
    field [StatementID]; the other fields are kept as they lie in memory. *)
Record TargetMetadata : Set := mkTargetMetadata {
  StatementID : N;
  TargetMetadata_fields : object;
}.

#[global] Instance TargetMetadata_message : Message TargetMetadata := {|
  fields := TargetMetadata_fields;
  with_fields m o := mkTargetMetadata (StatementID m) o;
|}.

(** Modelled from the spec: [scpb.Authorization]. *)
Record Authorization : Set := mkAuthorization {
  Authorization_fields : object;
}.

#[global] Instance Authorization_message : Message Authorization := {|
  fields := Authorization_fields;
  with_fields _ o := mkAuthorization o;
|}.

(** Modelled from the spec: [scpb.Statement]. *)
Record Statement : Set := mkStatement {
  Statement_ : string;
  RedactedStatement : string;
  StatementTag : string;
}.

(** Modelled from the spec: [scpb.ElementProto], the message that holds the
    pointer to one element. *)
Record ElementProto : Set := mkElementProto {
  ElementProto_element : Element;
}.

#[global] Instance ElementProto_message : Message ElementProto := {|
  fields p := [Ref (Element_ptr (ElementProto_element p))];
  with_fields p o :=
    match o with
    | [Ref l] => mkElementProto (mkElement (Element_struct (ElementProto_element p)) l)
    | _ => p
    end;
|}.

(** Modelled from the spec: [scpb.Target]. *)
Record Target : Set := mkTarget {
  Target_ElementProto : ElementProto;
  Metadata : TargetMetadata;
  TargetStatus : Status;
}.

(** [t.Element()]. *)
Definition Target_Element (t : Target) : Element :=
  ElementProto_element (Target_ElementProto t).

(** Modelled from the spec: [scpb.TargetState]. *)
Record TargetState : Set := mkTargetState {
  Targets : list Target;
  Statements : list Statement;
  TargetState_Authorization : Authorization;
}.

(** Modelled from the spec: [scpb.CurrentState], with the fields the source
    reads. *)
Record CurrentState : Set := mkCurrentState {
  CurrentState_TargetState : TargetState;
  CurrentState_InRollback : bool;
}.

End scpb.

(** ** Package [scop] *)

Module scop.
Import proto.

(** Modelled from the spec: [scop.Type], an integer type whose zero value is
    none of the three categories of operations. *)
Inductive Type_ : Set :=
| TypeZero
| MutationType
| BackfillType
| ValidationType.

#[global] Instance Type_eq_dec : EqDecision Type_.
Proof. solve_decision. Defined.

(** The four interfaces of the package that the source asks about. *)
Inductive InterfaceType : Set :=
| Op_interface
| MutationOp_interface
| ValidationOp_interface
| BackfillOp_interface.

(** A value of the interface [scop.Op]: a non-nil pointer, of dynamic type
    [Op_type], to the struct [Op_struct]. *)
Record Op : Set := mkOp {
  Op_type : reflect.Type_;
  Op_struct : object;
}.

Record EventBase : Set := mkEventBase {
  EventBase_TargetMetadata : scpb.TargetMetadata;
  EventBase_Authorization : scpb.Authorization;
  EventBase_Statement : string;
  EventBase_StatementTag : string;
}.

Record LogEvent : Set := mkLogEvent {
  LogEvent_EventBase : EventBase;
  LogEvent_Element : scpb.ElementProto;
  LogEvent_TargetStatus : scpb.Status;
}.

Record StatementForDropJob : Set := mkStatementForDropJob {
  StatementForDropJob_Statement : string;
  StatementForDropJob_StatementID : N;
  StatementForDropJob_Rollback : bool;
}.

End scop.

(** ** Outcomes of Go code *)

(** An argument of a format string. *)
Inductive fmtArg : Type :=
| ArgType (t : reflect.Type_)
| ArgKind (k : reflect.Kind)
| ArgString (s : string)
| ArgInt (z : Z)
| ArgOpType (t : scop.Type_)
| ArgInterfaceType (i : scop.InterfaceType).

(** A value of Go's [error], as the package [errors] builds it:
    [errors.Errorf] for an ordinary error and [errors.AssertionFailedf] for an
    assertion failure. *)
Inductive error : Type :=
| Errorf (format : string) (args : list fmtArg)
| AssertionFailedf (format : string) (args : list fmtArg).

Definition IsAssertionFailure (e : error) : bool :=
  match e with AssertionFailedf _ _ => true | Errorf _ _ => false end.

(** What a [panic] carries: an [error] given to [panic], or an error of the Go
    runtime or of the package [reflect]. *)
Inductive panicValue : Type :=
| PanicError (e : error)
| RuntimeError (msg : string)
| ReflectError (msg : string).

(** A call returns, panics, or is [Stuck]: the model ran out of depth, met a
    reference to no cell, which Go's memory safety excludes, or met a call it
    does not describe. *)
Inductive outcome (A : Type) : Type :=
| Returns (a : A)
| Panics (p : panicValue)
| Stuck.
Arguments Returns {A} a.
Arguments Panics {A} p.
Arguments Stuck {A}.

#[global] Instance outcome_ret : MRet outcome := fun A a => Returns a.
#[global] Instance outcome_bind : MBind outcome := fun A B k m =>
  match m with
  | Returns a => k a
  | Panics p => Panics p
  | Stuck => Stuck
  end.

(** A Go function with a last result of type [error]. *)
Inductive result (A : Type) : Type :=
| Ok (a : A)
| Err (e : error).
Arguments Ok {A} a.
Arguments Err {A} e.

(** [s[i]] on a slice: a run-time panic out of range. *)
Definition index {A} (s : list A) (i : nat) : outcome A :=
  match s !! i with
  | Some a => Returns a
  | None => Panics (RuntimeError "index out of range")
  end.

(** ** Package [protoutil] *)

Module protoutil.
Import proto.

(** The copy of a field, given how the cell of a reference is copied: the
    copy of the cell goes to a location that the heap does not have. *)
Definition clone_field (deref : loc -> heap -> option (object * heap))
    (f : field) (h : heap) : option (field * heap) :=
  match f with
  | Ref l =>
      match deref l h with
      | Some (c', h1) =>
          let l' := fresh (dom h1) in
          Some (Ref l', <[l' := c']> h1)
      | None => None
      end
  | _ => Some (f, h)
  end.

Fixpoint clone_fields (deref : loc -> heap -> option (object * heap))
    (o : object) (h : heap) : option (object * heap) :=
  match o with
  | [] => Some ([], h)
  | f :: o' =>
      match clone_field deref f h with
      | Some (f', h1) =>
          match clone_fields deref o' h1 with
          | Some (o'', h2) => Some (f' :: o'', h2)
          | None => None
          end
      | None => None
      end
  end.

(** [clone depth o h] copies the struct value [o]: every cell that [o] refers
    to is copied, in turn, into a cell that [h] does not have. [None] when
    [depth] is exhausted or a reference has no cell. *)
Fixpoint clone (depth : nat) (o : object) (h : heap) : option (object * heap) :=
  clone_fields
    (fun l h =>
       match depth with
       | O => None
       | S depth' =>
           match h !! l with
           | Some c => clone depth' c h
           | None => None
           end
       end) o h.

(** Modelled from the spec: [protoutil.Clone], which is not part of the
    sources, is the deep copy of a message (section 4.3: a deep copy,
    independent of the source records). [Clone depth m h] stands for the Go
    expression that clones [&m], asserts the pointer type of the copy and
    dereferences it: it gives the copy of [m] as a value, and the heap that
    holds the cells of the copy. *)
Definition Clone {A} `{Message A} (depth : nat) (m : A) (h : heap)
  : outcome (A * heap) :=
  match clone depth (fields m) h with
  | Some (o, h') => Returns (with_fields m o, h')
  | None => Stuck
  end.

(** *** The copy is deep *)

(** What a reference stands for, and how its cell is copied, at a depth: the
    functions that [content] and [clone] hand to the traversal of the fields. *)
Definition follow (depth : nat) (h : heap) (l : loc) : option tree :=
  match depth with
  | O => None
  | S depth' =>
      match h !! l with
      | Some c => TNode <$> content depth' h c
      | None => None
      end
  end.

Definition deref (depth : nat) (l : loc) (h : heap) : option (object * heap) :=
  match depth with
  | O => None
  | S depth' =>
      match h !! l with
      | Some c => clone depth' c h
      | None => None
      end
  end.

Lemma content_unfold (depth : nat) (h : heap) (o : object) :
  content depth h o = fields_tree (follow depth h) o.
Proof. destruct depth; reflexivity. Qed.

Lemma clone_unfold (depth : nat) (o : object) (h : heap) :
  clone depth o h = clone_fields (deref depth) o h.
Proof. destruct depth; reflexivity. Qed.

(** [h''] has the cells that the heap got between [h] and [h'], unchanged;
    the cells of [h], and any other, may hold anything. *)
Definition keeps_new (h h' h'' : heap) : Prop :=
  forall l, l ∉ dom h -> l ∈ dom h' -> h'' !! l = h' !! l.

Lemma keeps_new_refl (h h' : heap) : keeps_new h h' h'.
Proof. intros l _ _. reflexivity. Qed.

Lemma keeps_new_first (h h1 h2 h'' : heap) :
  h1 ⊆ h2 -> keeps_new h h2 h'' -> keeps_new h h1 h''.
Proof.
  intros H12 Hk l Hl Hl1. apply elem_of_dom in Hl1 as [c Hc].
  rewrite Hc. rewrite Hk; [|exact Hl|].
  - eapply lookup_weaken; eauto.
  - apply elem_of_dom. exists c. eapply lookup_weaken; eauto.
Qed.

Lemma keeps_new_rest (h h1 h2 h'' : heap) :
  h ⊆ h1 -> keeps_new h h2 h'' -> keeps_new h1 h2 h''.
Proof.
  intros H01 Hk l Hl Hl2. apply Hk; [|exact Hl2].
  intros Hin. apply Hl. eapply subseteq_dom; eauto.
Qed.

(** Trees do not change when the heap grows. *)
Lemma fields_tree_mono (f g : loc -> option tree) (o : object) (ts : list tree) :
  (forall l t, f l = Some t -> g l = Some t) ->
  fields_tree f o = Some ts -> fields_tree g o = Some ts.
Proof.
  intros Hfg. revert ts. induction o as [|x o IH]; intros ts; simpl; [auto|].
  destruct (field_tree f x) as [t|] eqn:Hx; [|discriminate].
  destruct (fields_tree f o) as [ts'|]; [|discriminate].
  intros [= <-]. rewrite (IH ts' eq_refl).
  replace (field_tree g x) with (Some t); [reflexivity|].
  destruct x; simpl in *; try congruence. symmetry. apply Hfg, Hx.
Qed.

Lemma content_mono (depth : nat) :
  forall (h h' : heap) (o : object) (ts : list tree),
    h ⊆ h' -> content depth h o = Some ts -> content depth h' o = Some ts.
Proof.
  induction depth as [|d IH]; intros h h' o ts Hsub; rewrite !content_unfold;
    apply fields_tree_mono; intros l t; simpl; [discriminate|].
  destruct (h !! l) as [c|] eqn:Hc; [|discriminate].
  rewrite (lookup_weaken _ _ _ _ Hc Hsub).
  destruct (content d h c) as [tc|] eqn:Htc; [|discriminate].
  rewrite (IH _ _ _ _ Hsub Htc). auto.
Qed.

(** The specification of a copy of a struct value [o] whose tree in [h] is
    [ts]: the copy exists, the heap only grows, and the copy has the tree [ts]
    in every heap that keeps the new cells. *)
Definition copies (depth : nat) (o : object) (h : heap) (ts : list tree)
    (r : option (object * heap)) : Prop :=
  exists o' h', r = Some (o', h') /\ h ⊆ h' /\
                forall h'', keeps_new h h' h'' -> content depth h'' o' = Some ts.

Lemma clone_fields_copies (depth : nat) :
  (forall l h t, follow depth h l = Some t ->
     exists c' h1, deref depth l h = Some (c', h1) /\ h ⊆ h1 /\
       forall h'', keeps_new h (<[fresh (dom h1) := c']> h1) h'' ->
                   follow depth h'' (fresh (dom h1)) = Some t) ->
  forall o h ts,
    content depth h o = Some ts -> copies depth o h ts (clone depth o h).
Proof.
  intros Href o. induction o as [|x o IH]; intros h ts;
    rewrite content_unfold, clone_unfold; simpl.
  - intros [= <-]. exists [], h. split; [reflexivity|]. split; [reflexivity|].
    intros h'' _. rewrite content_unfold. reflexivity.
  - destruct (field_tree (follow depth h) x) as [t|] eqn:Hx; [|discriminate].
    destruct (fields_tree (follow depth h) o) as [ts'|] eqn:Ho; [|discriminate].
    intros [= <-].
    assert (exists x' h1, clone_field (deref depth) x h = Some (x', h1) /\ h ⊆ h1 /\
              forall h'', keeps_new h h1 h'' ->
                          field_tree (follow depth h'') x' = Some t)
      as (x' & h1 & -> & H01 & Hx').
    { destruct x as [z|s| |l]; simpl in Hx |- *;
        try (eexists _, h; split; [reflexivity|]; split; [reflexivity|];
             intros; exact Hx).
      destruct (Href l h t Hx) as (c' & h1 & -> & H01 & Hnew).
      eexists _, _. split; [reflexivity|]. split; [|exact Hnew].
      etrans; [exact H01|]. apply insert_subseteq, not_elem_of_dom, is_fresh. }
    rewrite <- content_unfold in Ho.
    apply (content_mono depth h h1 o ts' H01) in Ho.
    destruct (IH h1 ts' Ho) as (o' & h2 & Hc & H12 & Ho').
    rewrite clone_unfold in Hc. rewrite Hc.
    exists (x' :: o'), h2. split; [reflexivity|]. split; [etrans; eauto|].
    intros h'' Hk. rewrite content_unfold. simpl.
    rewrite (Hx' h'' (keeps_new_first h h1 h2 h'' H12 Hk)).
    rewrite <- content_unfold, (Ho' h'' (keeps_new_rest h h1 h2 h'' H01 Hk)).
    reflexivity.
Qed.

Lemma clone_copies (depth : nat) :
  forall o h ts, content depth h o = Some ts -> copies depth o h ts (clone depth o h).
Proof.
  induction depth as [|d IH]; apply clone_fields_copies; intros l h t; simpl;
    [discriminate|].
  destruct (h !! l) as [c|] eqn:Hc; [|discriminate].
  destruct (content d h c) as [tc|] eqn:Htc; [|discriminate].
  intros [= <-]. destruct (IH c h tc Htc) as (c' & h1 & Hcl & H01 & Hc').
  exists c', h1. split; [exact Hcl|]. split; [exact H01|].
  intros h'' Hk.
  assert (fresh (dom h1) ∉ dom h) as Hfresh.
  { intros Hin. apply (is_fresh (dom h1)). eapply subseteq_dom; eauto. }
  rewrite (Hk _ Hfresh) by (apply elem_of_dom; rewrite lookup_insert_eq; eauto).
  rewrite lookup_insert_eq.
  rewrite (Hc' h''); [reflexivity|].
  eapply keeps_new_first; [|exact Hk].
  apply insert_subseteq, not_elem_of_dom, is_fresh.
Qed.

(** [Clone] of a message whose fields have a tree: the copy is returned, no
    cell of the heap changes, and the fields of the copy have the same tree in
    every heap that keeps the cells of the copy. *)
Lemma Clone_deep {A} `{Message A} (depth : nat) (m : A) (h : heap) (ts : list tree) :
  (forall (a : A) o, fields (with_fields a o) = o) ->
  content depth h (fields m) = Some ts ->
  exists o' h',
    Clone depth m h = Returns (with_fields m o', h') /\ h ⊆ h' /\
    forall h'', keeps_new h h' h'' ->
                content depth h'' (fields (with_fields m o')) = Some ts.
Proof.
  intros Hwf Hts. destruct (clone_copies depth _ _ _ Hts) as (o' & h' & Hc & Hsub & Hk).
  exists o', h'. unfold Clone. rewrite Hc. split; [reflexivity|]. split; [exact Hsub|].
  intros h'' Hh''. rewrite Hwf. apply Hk, Hh''.
Qed.

End protoutil.

(** ** Package [opgen] *)

Module opgen.
Import proto.

(** A [for] loop over a slice whose body may panic. *)
Fixpoint for_range {A S : Type} (body : S -> A -> outcome S) (s : S) (l : list A)
  : outcome S :=
  match l with
  | [] => Returns s
  | a :: l' => s' ← body s a; for_range body s' l'
  end.

(** [targetsWithElementMap]: the embedded [scpb.TargetState], the map from an
    element to the index of its target, and the rollback flag. *)
Record targetsWithElementMap : Type := mkTargetsWithElementMap {
  TargetState : scpb.TargetState;
  elementToTarget : gmap scpb.Element nat;
  InRollback : bool;
}.

(** A [reflect.Value] that the dispatcher passes to a function: the element,
    or the pointer to the target index (which is not nil: the record is what it
    points to). *)
Inductive Value : Type :=
| ValueOfElement (e : scpb.Element)
| ValueOfMeta (md : targetsWithElementMap).

(** A [reflect.Value] that a function returns to the dispatcher: a pointer of
    type [Pointer_Type], nil or pointing to a struct. *)
Record Pointer : Set := mkPointer {
  Pointer_Type : reflect.Type_;
  Pointer_target : option object;
}.

(** [reflect.TypeOf] of a nil pointer to [targetsWithElementMap]. *)
Definition targetsWithElementMap_ptr : reflect.Type_ :=
  reflect.PtrTo (reflect.Atom "opgen.targetsWithElementMap" reflect.LStruct).

Definition Value_Type (v : Value) : reflect.Type_ :=
  match v with
  | ValueOfElement e => scpb.TypeOf e
  | ValueOfMeta _ => targetsWithElementMap_ptr
  end.

(** A candidate of [makeOpsFunc]: a value of type [interface{}] other than
    the nil interface value, so that it has a dynamic type. When the type is a
    function type whose one result is a pointer, [Candidate_call] is the
    function, which is not nil: it maps the arguments to the struct the
    returned pointer points to, or to [None] for a nil pointer. Per the data
    model an operation function is pure: it returns, and has no effect
    besides. *)
Record Candidate : Type := mkCandidate {
  Candidate_Type : reflect.Type_;
  Candidate_call : list Value -> option object;
}.

(** [opsFunc]: the compiled functions of one kind of element. A call gives the
    operations, and appends to the log the calls it made of compiled
    functions. *)
Definition CallLog := list (Candidate * list Value).
Definition opsFunc : Type :=
  scpb.Element -> targetsWithElementMap -> CallLog -> outcome (list scop.Op * CallLog).

(** The [reflect.Type]s of the interfaces of [scop], under the names of the
    package variables that hold them. *)
Abbreviation opInterfaceType := scop.Op_interface.
Abbreviation mutationOpInterfaceType := scop.MutationOp_interface.
Abbreviation validationOpInterfaceType := scop.ValidationOp_interface.
Abbreviation backfillOpInterfaceType := scop.BackfillOp_interface.

Section opgen.

(** [out.Implements(i)]: the method sets of the operation types are declared
    in the package [scop]. *)
Variable implements : reflect.Type_ -> scop.InterfaceType -> bool.
(** [screl.ElementString]. *)
Variable ElementString : scpb.Element -> string.
(** [redact.RedactableString(s).StripMarkers()]. *)
Variable StripMarkers : string -> string.

Definition assertion_not_found (e : scpb.Element) : panicValue :=
  PanicError (AssertionFailedf "could not find element %s in target state"
                               [ArgString (ElementString e)]).

(** [newLogEventBase]. The heap [h] holds the cells of the messages of the
    plan, and the heap of the result those of the copies too; [depth] bounds
    the nesting of the messages that [Clone] walks. *)
Definition newLogEventBase (depth : nat) (e : scpb.Element) (md : targetsWithElementMap)
    (h : heap) : outcome (scop.EventBase * heap) :=
  match elementToTarget md !! e with
  | None => Panics (assertion_not_found e)
  | Some idx =>
      t ← index (scpb.Targets (TargetState md)) idx;
      '(tm, h1) ← protoutil.Clone depth (scpb.Metadata t) h;
      '(auth, h2) ← protoutil.Clone depth
                      (scpb.TargetState_Authorization (TargetState md)) h1;
      s ← index (scpb.Statements (TargetState md))
                (N.to_nat (scpb.StatementID (scpb.Metadata t)));
      s' ← index (scpb.Statements (TargetState md))
                 (N.to_nat (scpb.StatementID (scpb.Metadata t)));
      Returns (scop.mkEventBase tm auth (scpb.RedactedStatement s)
                                (scpb.StatementTag s'), h2)
  end.

(** [newLogEventOp]. *)
Definition newLogEventOp (depth : nat) (e : scpb.Element) (md : targetsWithElementMap)
    (h : heap) : outcome (scop.LogEvent * heap) :=
  match elementToTarget md !! e with
  | None => Panics (assertion_not_found e)
  | Some idx =>
      t ← index (scpb.Targets (TargetState md)) idx;
      '(base, h1) ← newLogEventBase depth e md h;
      '(el, h2) ← protoutil.Clone depth (scpb.Target_ElementProto t) h1;
      Returns (scop.mkLogEvent base el (scpb.TargetStatus t), h2)
  end.

(** [statementForDropJob]. A missing key of a Go map reads as the zero value,
    here the index 0. *)
Definition statementForDropJob (e : scpb.Element) (md : targetsWithElementMap)
  : outcome scop.StatementForDropJob :=
  t ← index (scpb.Targets (TargetState md)) (default 0 (elementToTarget md !! e));
  let stmtID := scpb.StatementID (scpb.Metadata t) in
  s ← index (scpb.Statements (TargetState md)) (N.to_nat stmtID);
  Returns (scop.mkStatementForDropJob
             (StripMarkers (scpb.RedactedStatement s)) stmtID (InRollback md)).

(** The body of the loop of [makeTargetsWithElementMap]. *)
Definition index_target (cs : scpb.CurrentState) (m : gmap scpb.Element nat) (i : nat)
  : outcome (gmap scpb.Element nat) :=
  let targets := scpb.Targets (scpb.CurrentState_TargetState cs) in
  t ← index targets i;
  let e := scpb.Target_Element t in
  match m !! e with
  | Some prev =>
      tp ← index targets prev;
      Panics (PanicError (AssertionFailedf "duplicate targets for %s: %v and %v"
                [ArgString (ElementString e); ArgInt (scpb.TargetStatus t);
                 ArgInt (scpb.TargetStatus tp)]))
  | None => Returns (<[e := i]> m)
  end.

(** [makeTargetsWithElementMap]. *)
Definition makeTargetsWithElementMap (cs : scpb.CurrentState)
  : outcome targetsWithElementMap :=
  let targets := scpb.Targets (scpb.CurrentState_TargetState cs) in
  m ← for_range (index_target cs) ∅ (seq 0 (length targets));
  Returns (mkTargetsWithElementMap (scpb.CurrentState_TargetState cs) m
                                   (scpb.CurrentState_InRollback cs)).

(** [checkOpFunc]. The format argument [opType] of [returnTypeError] is the
    named result, which is still zero when the error is built. *)
Definition checkOpFunc (el : scpb.Element) (fn : Candidate) : result scop.Type_ :=
  let fnT := Candidate_Type fn in
  if negb (bool_decide (reflect.Kind_of fnT = reflect.Func)) then
    Err (Errorf "%v is a %s, expected %s"
                [ArgType fnT; ArgKind (reflect.Kind_of fnT); ArgKind reflect.Func])
  else
  let elType := scpb.TypeOf el in
  if negb ((reflect.NumIn fnT =? 1)%nat && bool_decide (reflect.In fnT 0 = Some elType)) &&
     negb ((reflect.NumIn fnT =? 2)%nat && bool_decide (reflect.In fnT 0 = Some elType) &&
           bool_decide (reflect.In fnT 1 = Some targetsWithElementMap_ptr)) then
    Err (Errorf "expected %v to be a func with one argument of type %s"
                [ArgType fnT; ArgType elType])
  else
  let returnTypeError :=
    Errorf "expected %v to be a func with one return value of a pointer type which implements %s"
           [ArgType fnT; ArgOpType scop.TypeZero] in
  if negb (reflect.NumOut fnT =? 1)%nat then Err returnTypeError
  else
  match reflect.Out fnT 0 with
  | None => Err returnTypeError
  | Some out =>
      if negb (bool_decide (reflect.Kind_of out = reflect.Ptr)) ||
         negb (implements out opInterfaceType) then Err returnTypeError
      else if implements out mutationOpInterfaceType then Ok scop.MutationType
      else if implements out validationOpInterfaceType then Ok scop.ValidationType
      else if implements out backfillOpInterfaceType then Ok scop.BackfillType
      else Err (AssertionFailedf
                  "%s implemented %s but does not conform to any known type"
                  [ArgType out; ArgInterfaceType opInterfaceType])
  end.

(** [fn.Call(in)]: the package [reflect] panics unless [fn] is a function and
    [in] has one value for each parameter, of the type of the parameter (to the
    pointer types that [checkOpFunc] accepts as parameters only the identical
    type is assignable). The call is appended to the log. *)
Definition Call (fn : Candidate) (args : list Value) (log : CallLog)
  : outcome (list Pointer * CallLog) :=
  let fnT := Candidate_Type fn in
  if negb (bool_decide (reflect.Kind_of fnT = reflect.Func)) then
    Panics (ReflectError "reflect: call of non-function")
  else if negb (length args =? reflect.NumIn fnT)%nat then
    Panics (ReflectError "reflect: Call with too few or too many input arguments")
  else if negb (bool_decide (Value_Type <$> args = reflect.ins_of fnT)) then
    Panics (ReflectError "reflect: Call using a value as a parameter of another type")
  else
    match reflect.outs_of fnT with
    | [out] => Returns ([mkPointer out (Candidate_call fn args)], log ++ [(fn, args)])
    | _ => Stuck
    end.

(** [v.IsNil()] on a pointer. *)
Definition IsNil (v : Pointer) : bool :=
  match Pointer_target v with None => true | Some _ => false end.

(** [v.Interface().(scop.Op)]: the type assertion panics unless the type of
    the pointer implements [scop.Op]. *)
Definition Interface_Op (v : Pointer) : outcome scop.Op :=
  if implements (Pointer_Type v) scop.Op_interface then
    match Pointer_target v with
    | Some o => Returns (scop.mkOp (Pointer_Type v) o)
    | None => Stuck
    end
  else Panics (RuntimeError "interface conversion: not a scop.Op").

(** The body of the loop of the function that [makeOpsFunc] returns. *)
Definition call_opFunc (element : scpb.Element) (md : targetsWithElementMap)
    (s : list scop.Op * CallLog) (fn : Candidate) : outcome (list scop.Op * CallLog) :=
  let '(ret, log) := s in
  let in_ := [ValueOfElement element] in
  let inWithMeta := [ValueOfElement element; ValueOfMeta md] in
  '(out, log') ← (if (reflect.NumIn (Candidate_Type fn) =? 1)%nat
                   then Call fn in_ log
                   else Call fn inWithMeta log);
  out0 ← index out 0;
  if negb (IsNil out0) then
    op ← Interface_Op out0;
    Returns (ret ++ [op], log')
  else Returns (ret, log').

(** The function that [makeOpsFunc] returns, closed over [funcValues]. *)
Definition opsFunc_of (funcValues : list Candidate) : opsFunc :=
  fun element md log => for_range (call_opFunc element md) ([], log) funcValues.

(** The loop of [makeOpsFunc], from the state [(opType, funcValues)]. *)
Fixpoint checkOpFuncs (el : scpb.Element) (fns : list Candidate)
    (opType : scop.Type_) (funcValues : list Candidate)
  : result (scop.Type_ * list Candidate) :=
  match fns with
  | [] => Ok (opType, funcValues)
  | fn :: fns' =>
      match checkOpFunc el fn with
      | Err err => Err err
      | Ok typ =>
          if (0 <? length funcValues)%nat && negb (bool_decide (typ = opType)) then
            Err (Errorf "conflicting operation types for %T: %s != %s"
                        [ArgType (scpb.TypeOf el); ArgOpType opType; ArgOpType typ])
          else checkOpFuncs el fns' typ (funcValues ++ [fn])
      end
  end.

(** [makeOpsFunc]. *)
Definition makeOpsFunc (el : scpb.Element) (fns : list Candidate)
  : result (opsFunc * scop.Type_) :=
  match checkOpFuncs el fns scop.TypeZero [] with
  | Err err => Err err
  | Ok (opType, funcValues) => Ok (opsFunc_of funcValues, opType)
  end.

(** ** The shape of an operation function *)

(** The first of the three categories, in the order of the [switch] of
    [checkOpFunc], that the type [out] implements. *)
Definition first_category (out : reflect.Type_) : option scop.Type_ :=
  if implements out scop.MutationOp_interface then Some scop.MutationType
  else if implements out scop.ValidationOp_interface then Some scop.ValidationType
  else if implements out scop.BackfillOp_interface then Some scop.BackfillType
  else None.

(** The signature that the specification asks of an operation function for
    the kind of [el]: a function of the element, or of the element and the
    pointer to the target index, with one result [out], a pointer that
    implements [scop.Op]. *)
Definition accepted_signature (el : scpb.Element) (fnT out : reflect.Type_) : Prop :=
  reflect.Kind_of fnT = reflect.Func /\
  (reflect.ins_of fnT = [scpb.TypeOf el] \/
   reflect.ins_of fnT = [scpb.TypeOf el; targetsWithElementMap_ptr]) /\
  reflect.outs_of fnT = [out] /\
  reflect.Kind_of out = reflect.Ptr /\
  implements out scop.Op_interface = true.


Lemma one_argument (t a : reflect.Type_) :
  ((reflect.NumIn t =? 1)%nat && bool_decide (reflect.In t 0 = Some a))
  = bool_decide (reflect.ins_of t = [a]).
Proof.
  unfold reflect.NumIn, reflect.In.
  destruct (reflect.ins_of t) as [|x [|y l]]; cbn [length Nat.eqb andb].
  - symmetry. apply bool_decide_eq_false. discriminate.
  - apply bool_decide_ext. cbn. split; congruence.
  - symmetry. apply bool_decide_eq_false. discriminate.
Qed.

Lemma two_arguments (t a b : reflect.Type_) :
  ((reflect.NumIn t =? 2)%nat && bool_decide (reflect.In t 0 = Some a)
   && bool_decide (reflect.In t 1 = Some b))
  = bool_decide (reflect.ins_of t = [a; b]).
Proof.
  unfold reflect.NumIn, reflect.In.
  destruct (reflect.ins_of t) as [|x [|y [|z l]]]; cbn [length Nat.eqb andb];
    try (symmetry; apply bool_decide_eq_false; discriminate).
  change ([x; y] !! 0) with (Some x). change ([x; y] !! 1) with (Some y).
  destruct (decide (x = a)) as [->|Hx].
  - rewrite (bool_decide_eq_true_2 (Some a = Some a)) by reflexivity.
    cbn [andb]. apply bool_decide_ext. split; congruence.
  - rewrite (bool_decide_eq_false_2 (Some x = Some a)) by congruence.
    cbn [andb]. symmetry. apply bool_decide_eq_false. congruence.
Qed.

Lemma one_result (t : reflect.Type_) :
  (reflect.NumOut t =? 1)%nat = true ->
  exists out, reflect.outs_of t = [out] /\ reflect.Out t 0 = Some out.
Proof.
  unfold reflect.NumOut, reflect.Out.
  destruct (reflect.outs_of t) as [|x [|y l]]; simpl; try discriminate.
  intros _. exists x. split; reflexivity.
Qed.


(** [checkOpFunc] succeeds only on an accepted signature, with the first
    category of the result type. *)
Lemma checkOpFunc_Ok_inv (el : scpb.Element) (fn : Candidate) (ty : scop.Type_) :
  checkOpFunc el fn = Ok ty ->
  exists out, accepted_signature el (Candidate_Type fn) out /\
              first_category out = Some ty.
Proof.
  unfold checkOpFunc, first_category, accepted_signature.
  rewrite one_argument, two_arguments.
  destruct (decide (reflect.Kind_of (Candidate_Type fn) = reflect.Func)) as [HK|HK].
  2:{ rewrite (bool_decide_eq_false_2 _ HK). discriminate. }
  rewrite (bool_decide_eq_true_2 _ HK). simpl.
  destruct (bool_decide (reflect.ins_of (Candidate_Type fn) = [scpb.TypeOf el])) eqn:H1;
  destruct (bool_decide (reflect.ins_of (Candidate_Type fn)
                         = [scpb.TypeOf el; targetsWithElementMap_ptr])) eqn:H2;
    simpl; try discriminate;
    (destruct (reflect.NumOut (Candidate_Type fn) =? 1)%nat eqn:HN; simpl; [|discriminate];
     destruct (one_result _ HN) as (out & Ho & ->);
     destruct (bool_decide (reflect.Kind_of out = reflect.Ptr)) eqn:HP; simpl; [|discriminate];
     destruct (implements out scop.Op_interface) eqn:HI; simpl; [|discriminate];
     intros Hc; exists out;
     apply bool_decide_eq_true in HP;
     try apply bool_decide_eq_true in H1; try apply bool_decide_eq_true in H2;
     (split; [auto 10|]);
     repeat case_match; congruence).
Qed.


(** ** Compiling a group *)

(** The loop of [makeOpsFunc] keeps the functions in order and, once one
    function is in, keeps its category. *)
Lemma checkOpFuncs_Ok_inv (el : scpb.Element) (fns : list Candidate) :
  forall opType funcValues ty fv,
    checkOpFuncs el fns opType funcValues = Ok (ty, fv) ->
    fv = funcValues ++ fns /\
    Forall (fun fn => checkOpFunc el fn = Ok ty) fns /\
    (fns = [] -> ty = opType) /\
    (funcValues <> [] -> ty = opType).
Proof.
  induction fns as [|fn fns IH]; intros opType acc ty fv; simpl.
  - intros [= <- <-]. rewrite app_nil_r. auto.
  - destruct (checkOpFunc el fn) as [typ|err] eqn:Hfn; [|discriminate].
    destruct ((0 <? length acc)%nat && negb (bool_decide (typ = opType))) eqn:Hc;
      [discriminate|].
    intros H. apply IH in H as (-> & Hall & _ & Hty).
    assert (ty = typ) as -> by (apply Hty; destruct acc; discriminate).
    rewrite <- app_assoc. repeat split; auto; [discriminate|].
    intros Hacc. apply andb_false_iff in Hc as [Hc|Hc].
    + destruct acc; [congruence | discriminate].
    + apply negb_false_iff, bool_decide_eq_true in Hc. exact Hc.
Qed.

Lemma checkOpFuncs_agree (el : scpb.Element) (c : scop.Type_) (fns : list Candidate) :
  forall opType funcValues,
    Forall (fun fn => checkOpFunc el fn = Ok c) fns ->
    (funcValues <> [] -> opType = c) ->
    checkOpFuncs el fns opType funcValues
    = Ok (match fns with [] => opType | _ => c end, funcValues ++ fns).
Proof.
  induction fns as [|fn fns IH]; intros opType acc Hall Hacc; simpl.
  - rewrite app_nil_r. reflexivity.
  - inversion Hall as [|? ? Hfn Hall']; subst. rewrite Hfn.
    replace ((0 <? length acc)%nat && negb (bool_decide (c = opType))) with false.
    2:{ destruct acc as [|a acc]; [reflexivity|].
        rewrite (bool_decide_eq_true_2 (c = opType)) by (symmetry; apply Hacc; discriminate).
        reflexivity. }
    rewrite IH by auto. rewrite <- app_assoc. destruct fns; reflexivity.
Qed.

Lemma checkOpFuncs_conflict (el : scpb.Element) (c c' : scop.Type_)
    (pre : list Candidate) (fn : Candidate) (post : list Candidate) :
  forall opType funcValues,
    Forall (fun g => checkOpFunc el g = Ok c) pre ->
    (funcValues <> [] -> opType = c) ->
    funcValues ++ pre <> [] ->
    checkOpFunc el fn = Ok c' ->
    c' <> c ->
    checkOpFuncs el (pre ++ fn :: post) opType funcValues
    = Err (Errorf "conflicting operation types for %T: %s != %s"
                  [ArgType (scpb.TypeOf el); ArgOpType c; ArgOpType c']).
Proof.
  induction pre as [|g pre IH]; intros opType acc Hall Hacc Hne Hfn Hcc'; simpl.
  - rewrite Hfn. rewrite app_nil_r in Hne. rewrite (Hacc Hne).
    destruct acc as [|a acc]; [congruence|]. simpl.
    rewrite (bool_decide_eq_false_2 _ Hcc'). reflexivity.
  - inversion Hall as [|? ? Hg Hall']; subst. rewrite Hg.
    replace ((0 <? length acc)%nat && negb (bool_decide (c = opType))) with false.
    2:{ destruct acc as [|a acc]; [reflexivity|].
        rewrite (bool_decide_eq_true_2 (c = opType)) by (symmetry; apply Hacc; discriminate).
        reflexivity. }
    apply IH; auto. destruct acc; discriminate.
Qed.


Lemma makeOpsFunc_Ok_inv (el : scpb.Element) (fns : list Candidate)
    (f : opsFunc) (ty : scop.Type_) :
  makeOpsFunc el fns = Ok (f, ty) ->
  f = opsFunc_of fns /\
  Forall (fun fn => checkOpFunc el fn = Ok ty) fns /\
  (fns = [] -> ty = scop.TypeZero).
Proof.
  unfold makeOpsFunc.
  destruct (checkOpFuncs el fns scop.TypeZero []) as [[opType fv]|err] eqn:H;
    [|discriminate].
  intros [= <- <-]. apply checkOpFuncs_Ok_inv in H as (-> & Hall & Hz & _).
  repeat split; auto.
Qed.

(** ** Dispatch *)







(** ** Claims about compilation and dispatch *)



(** C5: when a group compiles, every function of it resolves to the category
    that the group reports, which is that of the first function; and
    compilation fails with a registration error at the first function that
    resolves to another category than the functions before it, whatever comes
    after. *)
Theorem makeOpsFunc_one_category (el : scpb.Element) :
  (forall fns f ty,
      makeOpsFunc el fns = Ok (f, ty) ->
      Forall (fun fn => checkOpFunc el fn = Ok ty) fns /\
      (forall fn rest, fns = fn :: rest -> checkOpFunc el fn = Ok ty)) /\
  (forall first pre fn post c c',
      Forall (fun g => checkOpFunc el g = Ok c) (first :: pre) ->
      checkOpFunc el fn = Ok c' ->
      c' <> c ->
      makeOpsFunc el (first :: pre ++ fn :: post)
      = Err (Errorf "conflicting operation types for %T: %s != %s"
                    [ArgType (scpb.TypeOf el); ArgOpType c; ArgOpType c'])) /\
  (forall first rest c,
      Forall (fun g => checkOpFunc el g = Ok c) (first :: rest) ->
      makeOpsFunc el (first :: rest) = Ok (opsFunc_of (first :: rest), c)).
Proof.
  repeat split.
  - apply makeOpsFunc_Ok_inv in H as (_ & Hall & _). exact Hall.
  - intros fn rest ->. apply makeOpsFunc_Ok_inv in H as (_ & Hall & _).
    inversion Hall; assumption.
  - intros first pre fn post c c' Hall Hfn Hne. unfold makeOpsFunc.
    change (first :: pre ++ fn :: post) with ((first :: pre) ++ fn :: post).
    rewrite (checkOpFuncs_conflict el c c'); auto; congruence.
  - intros first rest c Hall. unfold makeOpsFunc.
    rewrite (checkOpFuncs_agree el c); auto; congruence.
Qed.


(** C10: the empty list of candidates compiles; the reported category is the
    zero value, which is none of Mutation, Validation and Backfill, and the
    dispatcher returns no operation, and calls nothing, for every element and
    index. *)
Theorem makeOpsFunc_empty (el : scpb.Element) :
  exists f,
    makeOpsFunc el [] = Ok (f, scop.TypeZero) /\
    scop.TypeZero <> scop.MutationType /\
    scop.TypeZero <> scop.ValidationType /\
    scop.TypeZero <> scop.BackfillType /\
    forall element md log, f element md log = Returns ([], log).
Proof.
  exists (opsFunc_of []). repeat split; discriminate.
Qed.

(** ** The target index *)

(** The elements of the targets of a state, in order. *)
Definition elements_of (cs : scpb.CurrentState) : list scpb.Element :=
  scpb.Target_Element <$> scpb.Targets (scpb.CurrentState_TargetState cs).

(** The map built after [i] turns of the loop: it sends exactly the elements
    of the first [i] targets to their positions. *)
Definition indexes_first (cs : scpb.CurrentState) (i : nat)
    (m : gmap scpb.Element nat) : Prop :=
  forall e j, m !! e = Some j <-> j < i /\ elements_of cs !! j = Some e.

Lemma indexes_first_NoDup (cs : scpb.CurrentState) (m : gmap scpb.Element nat) :
  indexes_first cs (length (elements_of cs)) m -> NoDup (elements_of cs).
Proof.
  intros Hm. apply NoDup_alt. intros j k e Hj Hk.
  assert (m !! e = Some j) as H1 by (apply Hm; split; [eapply lookup_lt_Some|]; eauto).
  assert (m !! e = Some k) as H2 by (apply Hm; split; [eapply lookup_lt_Some|]; eauto).
  congruence.
Qed.

Lemma indexes_first_insert (cs : scpb.CurrentState) (i : nat)
    (m : gmap scpb.Element nat) (e : scpb.Element) :
  indexes_first cs i m -> elements_of cs !! i = Some e -> m !! e = None ->
  indexes_first cs (S i) (<[e := i]> m).
Proof.
  intros Hm Hi Hnone e' j. destruct (decide (e = e')) as [<-|Hne].
  - rewrite lookup_insert_eq. split.
    + intros [= <-]. split; [lia | exact Hi].
    + intros [Hlt Hj]. destruct (decide (j = i)) as [->|Hji]; [reflexivity|].
      assert (m !! e = Some j) as H by (apply Hm; split; [lia | exact Hj]).
      congruence.
  - rewrite lookup_insert_ne by exact Hne. rewrite (Hm e' j). split.
    + intros [Hlt Hj]. split; [lia | exact Hj].
    + intros [Hlt Hj]. split; [|exact Hj].
      destruct (decide (j = i)) as [->|Hji]; [congruence | lia].
Qed.

Lemma index_target_step (cs : scpb.CurrentState) (m : gmap scpb.Element nat)
    (i : nat) (t : scpb.Target) :
  scpb.Targets (scpb.CurrentState_TargetState cs) !! i = Some t ->
  index_target cs m i =
    match m !! scpb.Target_Element t with
    | Some prev =>
        tp ← index (scpb.Targets (scpb.CurrentState_TargetState cs)) prev;
        Panics (PanicError (AssertionFailedf "duplicate targets for %s: %v and %v"
                  [ArgString (ElementString (scpb.Target_Element t));
                   ArgInt (scpb.TargetStatus t); ArgInt (scpb.TargetStatus tp)]))
    | None => Returns (<[scpb.Target_Element t := i]> m)
    end.
Proof.
  intros Ht. unfold index_target.
  replace (index (scpb.Targets (scpb.CurrentState_TargetState cs)) i) with (Returns t)
    by (unfold index; rewrite Ht; reflexivity).
  reflexivity.
Qed.

(** The loop of [makeTargetsWithElementMap], from its [i]-th turn: it ends
    with the index of all targets when no element occurs twice, and otherwise
    panics with the assertion failure on duplicate targets. *)
Lemma index_targets_loop (cs : scpb.CurrentState) (n : nat) :
  forall i m,
    i + n = length (elements_of cs) ->
    indexes_first cs i m ->
    (NoDup (elements_of cs) /\
     exists m', for_range (index_target cs) m (seq i n) = Returns m' /\
                indexes_first cs (length (elements_of cs)) m') \/
    (~ NoDup (elements_of cs) /\
     exists args, for_range (index_target cs) m (seq i n)
                  = Panics (PanicError (AssertionFailedf
                                          "duplicate targets for %s: %v and %v" args))).
Proof.
  induction n as [|n IH]; intros i m Hlen Hm.
  - left. replace i with (length (elements_of cs)) in Hm by lia.
    split; [eapply indexes_first_NoDup; exact Hm|]. exists m. split; [reflexivity|exact Hm].
  - cbn [seq for_range].
    destruct (lookup_lt_is_Some_2 (elements_of cs) i ltac:(lia)) as [e He].
    unfold elements_of in He. rewrite list_lookup_fmap in He.
    destruct (scpb.Targets (scpb.CurrentState_TargetState cs) !! i) as [t|] eqn:Ht;
      [|discriminate].
    injection He as He. rewrite (index_target_step cs m i t Ht), He.
    destruct (m !! e) as [prev|] eqn:Hprev.
    + right. apply Hm in Hprev as [Hlt Hp]. split.
      * intros Hnd. assert (prev = i); [|lia].
        eapply NoDup_lookup; [exact Hnd|exact Hp|].
        unfold elements_of. rewrite list_lookup_fmap, Ht. simpl. congruence.
      * unfold elements_of in Hp. rewrite list_lookup_fmap in Hp.
        unfold index. destruct (scpb.Targets (scpb.CurrentState_TargetState cs) !! prev)
          as [tp|]; [|discriminate].
        cbn [mbind outcome_bind]. eauto.
    + cbn [mbind outcome_bind]. apply IH; [lia|].
      apply indexes_first_insert; auto.
      unfold elements_of. rewrite list_lookup_fmap, Ht. simpl. congruence.
Qed.

Lemma indexes_first_0 (cs : scpb.CurrentState) : indexes_first cs 0 ∅.
Proof. intros e j. rewrite lookup_empty. split; [discriminate | lia]. Qed.

(** C3: on a state whose targets have pairwise distinct elements,
    [makeTargetsWithElementMap] returns; the result keeps the target state and
    the rollback flag, and its map sends an element to a position exactly
    when the target at that position has this element. *)
Theorem makeTargetsWithElementMap_unique (cs : scpb.CurrentState) :
  NoDup (elements_of cs) ->
  exists md,
    makeTargetsWithElementMap cs = Returns md /\
    TargetState md = scpb.CurrentState_TargetState cs /\
    InRollback md = scpb.CurrentState_InRollback cs /\
    (forall i t, scpb.Targets (scpb.CurrentState_TargetState cs) !! i = Some t ->
                 elementToTarget md !! scpb.Target_Element t = Some i) /\
    (forall e i, elementToTarget md !! e = Some i ->
                 exists t, scpb.Targets (TargetState md) !! i = Some t /\
                           scpb.Target_Element t = e).
Proof.
  intros Hnd. unfold makeTargetsWithElementMap.
  destruct (index_targets_loop cs (length (elements_of cs)) 0 ∅ eq_refl
              (indexes_first_0 cs)) as [(_ & m & Hrun & Hm)|[Hno _]]; [|contradiction].
  unfold elements_of in Hrun at 1. rewrite length_fmap in Hrun. rewrite Hrun.
  cbn [mbind outcome_bind]. eexists. split; [reflexivity|]. cbn.
  repeat split.
  - intros i t Ht. apply Hm. split.
    + unfold elements_of. rewrite length_fmap. eapply lookup_lt_Some, Ht.
    + unfold elements_of. rewrite list_lookup_fmap, Ht. reflexivity.
  - intros e i He. apply Hm in He as [_ He]. unfold elements_of in He.
    rewrite list_lookup_fmap in He.
    destruct (scpb.Targets (scpb.CurrentState_TargetState cs) !! i) as [t|];
      [|discriminate].
    exists t. split; [reflexivity | simpl in He; congruence].
Qed.

(** C4: on a state with two targets of the same element,
    [makeTargetsWithElementMap] panics with an assertion failure: it returns
    neither an index nor an error. *)
Theorem makeTargetsWithElementMap_duplicate (cs : scpb.CurrentState)
    (i j : nat) (ti tj : scpb.Target) :
  i <> j ->
  scpb.Targets (scpb.CurrentState_TargetState cs) !! i = Some ti ->
  scpb.Targets (scpb.CurrentState_TargetState cs) !! j = Some tj ->
  scpb.Target_Element ti = scpb.Target_Element tj ->
  exists args,
    makeTargetsWithElementMap cs
    = Panics (PanicError (AssertionFailedf "duplicate targets for %s: %v and %v" args)) /\
    IsAssertionFailure (AssertionFailedf "duplicate targets for %s: %v and %v" args) = true.
Proof.
  intros Hij Hi Hj Heq. unfold makeTargetsWithElementMap.
  destruct (index_targets_loop cs (length (elements_of cs)) 0 ∅ eq_refl
              (indexes_first_0 cs)) as [[Hnd _]|(_ & args & Hrun)].
  - exfalso. apply Hij. eapply NoDup_lookup; [exact Hnd| |].
    + unfold elements_of. rewrite list_lookup_fmap, Hi. reflexivity.
    + unfold elements_of. rewrite list_lookup_fmap, Hj. simpl. congruence.
  - unfold elements_of in Hrun at 1. rewrite length_fmap in Hrun. rewrite Hrun.
    exists args. split; reflexivity.
Qed.

(** ** The event builders *)

(** The base event and the log event check the lookup: on an element that the
    map does not have they panic with an assertion failure that names the
    element. *)
Lemma newLogEventBase_absent (depth : nat) (e : scpb.Element)
    (md : targetsWithElementMap) (h : heap) :
  elementToTarget md !! e = None ->
  newLogEventBase depth e md h
  = Panics (PanicError (AssertionFailedf "could not find element %s in target state"
                                         [ArgString (ElementString e)])).
Proof. intros H. unfold newLogEventBase. rewrite H. reflexivity. Qed.

Lemma newLogEventOp_absent (depth : nat) (e : scpb.Element)
    (md : targetsWithElementMap) (h : heap) :
  elementToTarget md !! e = None ->
  newLogEventOp depth e md h
  = Panics (PanicError (AssertionFailedf "could not find element %s in target state"
                                         [ArgString (ElementString e)])).
Proof. intros H. unfold newLogEventOp. rewrite H. reflexivity. Qed.

(** [statementForDropJob] does not check the lookup: on an element that the
    map does not have it reads the target at index 0, and never raises an
    assertion failure. *)
Lemma statementForDropJob_absent (e : scpb.Element) (md : targetsWithElementMap) :
  elementToTarget md !! e = None ->
  statementForDropJob e md
  = (t ← index (scpb.Targets (TargetState md)) 0;
     s ← index (scpb.Statements (TargetState md))
               (N.to_nat (scpb.StatementID (scpb.Metadata t)));
     Returns (scop.mkStatementForDropJob
                (StripMarkers (scpb.RedactedStatement s))
                (scpb.StatementID (scpb.Metadata t)) (InRollback md))) /\
  forall format args,
    statementForDropJob e md <> Panics (PanicError (AssertionFailedf format args)).
Proof.
  intros H. unfold statementForDropJob. rewrite H. split; [reflexivity|].
  intros format args. change (default 0 None) with 0. unfold index.
  destruct (scpb.Targets (TargetState md) !! 0) as [t|]; cbn [mbind outcome_bind];
    [|discriminate].
  destruct (scpb.Statements (TargetState md) !! _) as [s|]; cbn [mbind outcome_bind];
    discriminate.
Qed.

(** C9: for an element that the map sends to a target whose statement
    exists, [statementForDropJob] returns the record of the redacted text of
    that statement with the markers stripped, the statement id of the
    metadata of the target, and the rollback flag of the plan. *)
Theorem statementForDropJob_present (e : scpb.Element) (md : targetsWithElementMap)
    (idx : nat) (t : scpb.Target) (s : scpb.Statement) :
  elementToTarget md !! e = Some idx ->
  scpb.Targets (TargetState md) !! idx = Some t ->
  scpb.Statements (TargetState md) !! N.to_nat (scpb.StatementID (scpb.Metadata t))
  = Some s ->
  statementForDropJob e md
  = Returns {| scop.StatementForDropJob_Statement :=
                 StripMarkers (scpb.RedactedStatement s);
               scop.StatementForDropJob_StatementID :=
                 scpb.StatementID (scpb.Metadata t);
               scop.StatementForDropJob_Rollback := InRollback md |}.
Proof.
  intros He Ht Hs. unfold statementForDropJob, index. rewrite He.
  change (default 0 (Some idx)) with idx. rewrite Ht. cbn [mbind outcome_bind]. rewrite Hs. reflexivity.
Qed.

(** C8: for an element of the index whose statement exists and whose target
    metadata and authorization are messages in the heap, the base event is
    returned and no cell of the heap changes; the metadata and the
    authorization of the event have the trees of the originals (they are
    structurally equal to them), and keep these trees in every later heap that
    keeps the cells of the copies, whatever it holds in the cells of the
    originals: writing to an original cell leaves the event as it was. *)
Theorem newLogEventBase_defensive_copies
    (depth : nat) (e : scpb.Element) (md : targetsWithElementMap) (h : heap)
    (idx : nat) (t : scpb.Target) (s : scpb.Statement) (tm ta : list tree) :
  elementToTarget md !! e = Some idx ->
  scpb.Targets (TargetState md) !! idx = Some t ->
  scpb.Statements (TargetState md) !! N.to_nat (scpb.StatementID (scpb.Metadata t))
  = Some s ->
  content depth h (scpb.TargetMetadata_fields (scpb.Metadata t)) = Some tm ->
  content depth h (scpb.Authorization_fields
                     (scpb.TargetState_Authorization (TargetState md))) = Some ta ->
  exists ev h',
    newLogEventBase depth e md h = Returns (ev, h') /\
    h ⊆ h' /\
    scpb.StatementID (scop.EventBase_TargetMetadata ev)
    = scpb.StatementID (scpb.Metadata t) /\
    scop.EventBase_Statement ev = scpb.RedactedStatement s /\
    scop.EventBase_StatementTag ev = scpb.StatementTag s /\
    (forall h'',
        protoutil.keeps_new h h' h'' ->
        content depth h'' (scpb.TargetMetadata_fields (scop.EventBase_TargetMetadata ev))
        = Some tm /\
        content depth h'' (scpb.Authorization_fields (scop.EventBase_Authorization ev))
        = Some ta) /\
    (forall l c,
        l ∈ dom h ->
        content depth (<[l := c]> h')
                (scpb.TargetMetadata_fields (scop.EventBase_TargetMetadata ev))
        = Some tm /\
        content depth (<[l := c]> h')
                (scpb.Authorization_fields (scop.EventBase_Authorization ev))
        = Some ta).
Proof.
  intros He Ht Hs Htm Hta. unfold newLogEventBase, index. rewrite He, Ht.
  cbn [mbind outcome_bind].
  destruct (@protoutil.Clone_deep _ scpb.TargetMetadata_message depth
              (scpb.Metadata t) h tm (fun _ _ => eq_refl) Htm)
    as (o1 & h1 & -> & H01 & Hk1).
  cbn [mbind outcome_bind].
  apply (protoutil.content_mono depth h h1 _ _ H01) in Hta.
  destruct (@protoutil.Clone_deep _ scpb.Authorization_message depth
              (scpb.TargetState_Authorization (TargetState md)) h1 ta
              (fun _ _ => eq_refl) Hta) as (o2 & h2 & -> & H12 & Hk2).
  cbn [mbind outcome_bind]. rewrite Hs. cbn [mbind outcome_bind].
  eexists _, h2. split; [reflexivity|]. cbn.
  assert (Hall : forall h'', protoutil.keeps_new h h2 h'' ->
            content depth h'' o1 = Some tm /\ content depth h'' o2 = Some ta).
  { intros h'' Hk. split.
    - apply Hk1. eapply protoutil.keeps_new_first; eauto.
    - apply Hk2. eapply protoutil.keeps_new_rest; eauto. }
  repeat split; try (etrans; eassumption); try (apply Hall; assumption).
  all: apply Hall; intros l' Hl' _; rewrite lookup_insert_ne; [reflexivity|];
    intros ->; contradiction.
Qed.

(** ** More on compilation and dispatch *)

Lemma for_range_app {A S : Type} (body : S -> A -> outcome S) (l1 l2 : list A) :
  forall s, for_range body s (l1 ++ l2) = (s' ← for_range body s l1; for_range body s' l2).
Proof.
  induction l1 as [|a l1 IH]; intros s; simpl; [reflexivity|].
  destruct (body s a) as [s1| |]; simpl; [apply IH | reflexivity | reflexivity].
Qed.

(** The operations that a turn of the dispatcher finds in [ret] stay in
    front: the turn only appends. *)
Lemma call_opFunc_appends (element : scpb.Element) (md : targetsWithElementMap)
    (ret : list scop.Op) (log : CallLog) (fn : Candidate) :
  call_opFunc element md (ret, log) fn
  = ('(r, l) ← call_opFunc element md ([], log) fn; Returns (ret ++ r, l)).
Proof.
  unfold call_opFunc.
  destruct (if (reflect.NumIn (Candidate_Type fn) =? 1)%nat
            then Call fn [ValueOfElement element] log
            else Call fn [ValueOfElement element; ValueOfMeta md] log)
    as [[out log']| |]; cbn [mbind outcome_bind]; try reflexivity.
  destruct (index out 0) as [out0| |]; cbn [mbind outcome_bind]; try reflexivity.
  destruct (negb (IsNil out0)); cbn [mbind outcome_bind].
  - destruct (Interface_Op out0) as [op| |]; cbn [mbind outcome_bind]; reflexivity.
  - rewrite app_nil_r. reflexivity.
Qed.

Lemma opsFunc_loop_appends (element : scpb.Element) (md : targetsWithElementMap)
    (fns : list Candidate) :
  forall ret log,
    for_range (call_opFunc element md) (ret, log) fns
    = ('(r, l) ← for_range (call_opFunc element md) ([], log) fns; Returns (ret ++ r, l)).
Proof.
  induction fns as [|fn fns IH]; intros ret log; cbn [for_range].
  - cbn. rewrite app_nil_r. reflexivity.
  - rewrite (call_opFunc_appends element md ret).
    destruct (call_opFunc element md ([], log) fn) as [[r l]| |];
      cbn [mbind outcome_bind]; try reflexivity.
    rewrite (IH (ret ++ r)), (IH r).
    destruct (for_range (call_opFunc element md) ([], l) fns) as [[r' l']| |];
      cbn [mbind outcome_bind]; try reflexivity.
    rewrite app_assoc. reflexivity.
Qed.

(** X1: a group splits: when the functions [fns1 ++ fns2] compile, so do [fns1]
    and [fns2], with the category of the whole when they are not empty, and
    the dispatcher of the whole runs the dispatcher of [fns1], then that of
    [fns2], and returns the operations of the first followed by those of the
    second; a panic of either is the panic of the whole. *)
Theorem makeOpsFunc_app (el : scpb.Element) (fns1 fns2 : list Candidate)
    (f : opsFunc) (ty : scop.Type_) :
  makeOpsFunc el (fns1 ++ fns2) = Ok (f, ty) ->
  exists f1 ty1 f2 ty2,
    makeOpsFunc el fns1 = Ok (f1, ty1) /\
    makeOpsFunc el fns2 = Ok (f2, ty2) /\
    (fns1 <> [] -> ty1 = ty) /\
    (fns2 <> [] -> ty2 = ty) /\
    forall element md log,
      f element md log
      = ('(ops1, log1) ← f1 element md log;
         '(ops2, log2) ← f2 element md log1;
         Returns (ops1 ++ ops2, log2)).
Proof.
  intros Hmk. apply makeOpsFunc_Ok_inv in Hmk as (-> & Hall & _).
  apply Forall_app in Hall as [H1 H2].
  exists (opsFunc_of fns1), (match fns1 with [] => scop.TypeZero | _ => ty end),
         (opsFunc_of fns2), (match fns2 with [] => scop.TypeZero | _ => ty end).
  split; [|split; [|split; [|split]]].
  - unfold makeOpsFunc. rewrite (checkOpFuncs_agree el ty) by (auto; congruence).
    reflexivity.
  - unfold makeOpsFunc. rewrite (checkOpFuncs_agree el ty) by (auto; congruence).
    reflexivity.
  - destruct fns1; congruence.
  - destruct fns2; congruence.
  - intros element md log. unfold opsFunc_of. rewrite for_range_app.
    destruct (for_range (call_opFunc element md) ([], log) fns1) as [[ops1 log1]| |];
      cbn [mbind outcome_bind]; try reflexivity.
    apply opsFunc_loop_appends.
Qed.



(** X3: a group is for one kind of element: a compiled group that is not empty,
    called on an element of another type than the one it was compiled for,
    panics in the first call, through the package [reflect]. *)
Theorem opsFunc_other_kind_panics
    (el : scpb.Element) (fn : Candidate) (fns : list Candidate)
    (f : opsFunc) (ty : scop.Type_)
    (element : scpb.Element) (md : targetsWithElementMap) (log : CallLog) :
  makeOpsFunc el (fn :: fns) = Ok (f, ty) ->
  scpb.TypeOf element <> scpb.TypeOf el ->
  f element md log
  = Panics (ReflectError "reflect: Call using a value as a parameter of another type").
Proof.
  intros Hmk Hel. apply makeOpsFunc_Ok_inv in Hmk as (-> & Hall & _).
  inversion Hall as [|? ? Hfn _]; subst.
  apply checkOpFunc_Ok_inv in Hfn as (out & (HK & Hin & Hout & _) & _).
  unfold opsFunc_of. cbn [for_range]. unfold call_opFunc, Call, reflect.NumIn.
  rewrite (bool_decide_eq_true_2 _ HK).
  destruct Hin as [Hin|Hin]; rewrite Hin;
    cbn [length Nat.eqb negb fmap list_fmap Value_Type];
    rewrite bool_decide_eq_false_2 by congruence; reflexivity.
Qed.


Lemma checkOpFuncs_first_error (el : scpb.Element) (c : scop.Type_)
    (pre : list Candidate) (fn : Candidate) (post : list Candidate) (err : error) :
  forall opType funcValues,
    Forall (fun g => checkOpFunc el g = Ok c) pre ->
    (funcValues <> [] -> opType = c) ->
    checkOpFunc el fn = Err err ->
    checkOpFuncs el (pre ++ fn :: post) opType funcValues = Err err.
Proof.
  induction pre as [|g pre IH]; intros opType acc Hall Hacc Hfn; simpl.
  - rewrite Hfn. reflexivity.
  - inversion Hall as [|? ? Hg Hall']; subst. rewrite Hg.
    replace ((0 <? length acc)%nat && negb (bool_decide (c = opType))) with false.
    2:{ destruct acc as [|a acc]; [reflexivity|].
        rewrite (bool_decide_eq_true_2 (c = opType)) by (symmetry; apply Hacc; discriminate).
        reflexivity. }
    apply IH; auto.
Qed.

(** X5: [makeOpsFunc] stops at the first function that cannot be taken: when the
    functions before [fn] resolve to one category and [checkOpFunc] refuses
    [fn], the group fails with the very error of [fn], whatever follows, and
    so with an assertion failure exactly when that error is one. *)
Theorem makeOpsFunc_first_error (el : scpb.Element) (c : scop.Type_)
    (pre : list Candidate) (fn : Candidate) (post : list Candidate) (err : error) :
  Forall (fun g => checkOpFunc el g = Ok c) pre ->
  checkOpFunc el fn = Err err ->
  makeOpsFunc el (pre ++ fn :: post) = Err err.
Proof.
  intros Hall Hfn. unfold makeOpsFunc.
  rewrite (checkOpFuncs_first_error el c pre fn post err); auto. congruence.
Qed.

(** ** More on the target index *)

Lemma makeTargetsWithElementMap_Returns_inv (cs : scpb.CurrentState)
    (md : targetsWithElementMap) :
  makeTargetsWithElementMap cs = Returns md ->
  TargetState md = scpb.CurrentState_TargetState cs /\
  InRollback md = scpb.CurrentState_InRollback cs /\
  NoDup (elements_of cs) /\
  indexes_first cs (length (elements_of cs)) (elementToTarget md).
Proof.
  unfold makeTargetsWithElementMap.
  destruct (index_targets_loop cs (length (elements_of cs)) 0 ∅ eq_refl
              (indexes_first_0 cs)) as [(Hnd & m & Hrun & Hm)|(_ & args & Hrun)];
    unfold elements_of in Hrun at 1; rewrite length_fmap in Hrun; rewrite Hrun;
    cbn [mbind outcome_bind]; [|discriminate].
  intros [= <-]. cbn. auto.
Qed.

(** X6: [makeTargetsWithElementMap] decides whether the elements of the targets
    are pairwise distinct: it returns exactly when they are, and otherwise
    panics with the assertion failure on duplicate targets. It has no other
    outcome: the index [prev] that it reads back from the map is always in
    range. *)
Theorem makeTargetsWithElementMap_decides_unique (cs : scpb.CurrentState) :
  (NoDup (elements_of cs) /\ exists md, makeTargetsWithElementMap cs = Returns md) \/
  (~ NoDup (elements_of cs) /\
   exists args,
     makeTargetsWithElementMap cs
     = Panics (PanicError (AssertionFailedf "duplicate targets for %s: %v and %v" args))).
Proof.
  unfold makeTargetsWithElementMap.
  destruct (index_targets_loop cs (length (elements_of cs)) 0 ∅ eq_refl
              (indexes_first_0 cs)) as [(Hnd & m & Hrun & Hm)|(Hnd & args & Hrun)];
    unfold elements_of in Hrun at 1; rewrite length_fmap in Hrun; rewrite Hrun;
    cbn [mbind outcome_bind]; [left|right]; eauto.
Qed.

(** X7: the index that [makeTargetsWithElementMap] returns has one entry for each
    target, its keys are the elements of the targets, and no two keys share
    an index. *)
Theorem makeTargetsWithElementMap_one_entry_per_target (cs : scpb.CurrentState)
    (md : targetsWithElementMap) :
  makeTargetsWithElementMap cs = Returns md ->
  size (elementToTarget md) = length (scpb.Targets (TargetState md)) /\
  (forall e, is_Some (elementToTarget md !! e) <-> e ∈ elements_of cs) /\
  (forall e e' i, elementToTarget md !! e = Some i ->
                  elementToTarget md !! e' = Some i -> e = e').
Proof.
  intros Hmk. apply makeTargetsWithElementMap_Returns_inv in Hmk as (HT & _ & Hnd & Hm).
  assert (Hkeys : forall e, is_Some (elementToTarget md !! e) <-> e ∈ elements_of cs).
  { intros e. split.
    - intros [i Hi]. apply Hm in Hi as [_ Hi]. eapply list_elem_of_lookup_2, Hi.
    - intros He. apply list_elem_of_lookup in He as [i Hi]. exists i. apply Hm.
      split; [eapply lookup_lt_Some, Hi | exact Hi]. }
  split; [|split; [exact Hkeys|]].
  - rewrite HT. rewrite <- size_dom.
    replace (dom (elementToTarget md)) with (list_to_set (elements_of cs) : gset _).
    + rewrite size_list_to_set by exact Hnd. unfold elements_of. apply length_fmap.
    + apply set_eq. intros e. rewrite elem_of_list_to_set, elem_of_dom. symmetry.
      apply Hkeys.
  - intros e e' i He He'. apply Hm in He as [_ He]. apply Hm in He' as [_ He'].
    congruence.
Qed.

(** The loop of [makeTargetsWithElementMap] over the first [j] targets, when
    their elements are pairwise distinct. *)
Lemma index_targets_prefix (cs : scpb.CurrentState) (j : nat) :
  j <= length (elements_of cs) ->
  NoDup (take j (elements_of cs)) ->
  exists m, for_range (index_target cs) ∅ (seq 0 j) = Returns m /\ indexes_first cs j m.
Proof.
  induction j as [|j IH]; intros Hj Hnd.
  - exists ∅. split; [reflexivity | apply indexes_first_0].
  - destruct (lookup_lt_is_Some_2 (elements_of cs) j ltac:(lia)) as [e He].
    rewrite (take_S_r _ _ _ He) in Hnd. apply NoDup_app in Hnd as (Hnd & Hfresh & _).
    destruct (IH ltac:(lia) Hnd) as (m & Hrun & Hm).
    rewrite seq_S, for_range_app, Hrun. cbn [mbind outcome_bind for_range].
    change (0 + j) with j. pose proof He as He'. unfold elements_of in He'. rewrite list_lookup_fmap in He'.
    destruct (scpb.Targets (scpb.CurrentState_TargetState cs) !! j) as [t|] eqn:Ht;
      [|discriminate].
    injection He' as He'. rewrite (index_target_step cs m j t Ht), He'.
    destruct (m !! e) as [p|] eqn:Hp.
    + exfalso. apply Hm in Hp as [Hlt Hp]. apply (Hfresh e).
      * apply list_elem_of_lookup. exists p. rewrite lookup_take_lt by lia. exact Hp.
      * apply list_elem_of_here.
    + cbn [mbind outcome_bind]. eexists. split; [reflexivity|].
      apply indexes_first_insert; auto.
Qed.

(** X8: the assertion failure on duplicate targets names the first target, in the
    order of the state, whose element occurred before, and gives the status
    of this target and then the status of the earlier target of the same
    element. *)
Theorem makeTargetsWithElementMap_duplicate_report (cs : scpb.CurrentState)
    (i j : nat) (ti tj : scpb.Target) :
  i < j ->
  scpb.Targets (scpb.CurrentState_TargetState cs) !! i = Some ti ->
  scpb.Targets (scpb.CurrentState_TargetState cs) !! j = Some tj ->
  scpb.Target_Element ti = scpb.Target_Element tj ->
  NoDup (take j (elements_of cs)) ->
  makeTargetsWithElementMap cs
  = Panics (PanicError (AssertionFailedf "duplicate targets for %s: %v and %v"
              [ArgString (ElementString (scpb.Target_Element tj));
               ArgInt (scpb.TargetStatus tj); ArgInt (scpb.TargetStatus ti)])).
Proof.
  intros Hij Hi Hj Heq Hnd. unfold makeTargetsWithElementMap.
  pose proof (lookup_lt_Some _ _ _ Hj) as Hlen.
  replace (length (scpb.Targets (scpb.CurrentState_TargetState cs)))
    with (j + S (length (scpb.Targets (scpb.CurrentState_TargetState cs)) - S j))
    by lia.
  rewrite seq_app, for_range_app.
  destruct (index_targets_prefix cs j) as (m & -> & Hm); [|exact Hnd|].
  { unfold elements_of. rewrite length_fmap. lia. }
  cbn [mbind outcome_bind seq for_range]. change (0 + j) with j.
  rewrite (index_target_step cs m j tj Hj).
  assert (m !! scpb.Target_Element tj = Some i) as ->.
  { apply Hm. split; [exact Hij|]. unfold elements_of.
    rewrite list_lookup_fmap, Hi. simpl. congruence. }
  unfold index. rewrite Hi. reflexivity.
Qed.

(** ** More on the event builders *)

(** X9: the log builders after [makeTargetsWithElementMap]: for an element that
    no target of the state has, both panic with the assertion failure that
    names the element, whatever the heap holds. *)
Theorem log_builders_outside_plan (cs : scpb.CurrentState) (md : targetsWithElementMap)
    (depth : nat) (e : scpb.Element) (h : heap) :
  makeTargetsWithElementMap cs = Returns md ->
  e ∉ elements_of cs ->
  newLogEventBase depth e md h
  = Panics (PanicError (AssertionFailedf "could not find element %s in target state"
                                         [ArgString (ElementString e)])) /\
  newLogEventOp depth e md h
  = Panics (PanicError (AssertionFailedf "could not find element %s in target state"
                                         [ArgString (ElementString e)])).
Proof.
  intros Hmk He. apply makeTargetsWithElementMap_Returns_inv in Hmk as (_ & _ & _ & Hm).
  assert (elementToTarget md !! e = None) as Hnone.
  { destruct (elementToTarget md !! e) as [i|] eqn:Hi; [|reflexivity].
    exfalso. apply He. apply Hm in Hi as [_ Hi]. eapply list_elem_of_lookup_2, Hi. }
  split; [apply newLogEventBase_absent | apply newLogEventOp_absent]; exact Hnone.
Qed.

(** X10: [statementForDropJob] after [makeTargetsWithElementMap]: an element that
    no target of the state has is answered as the element of the first target
    is; when the state has no target, the answer is the run-time panic of the
    index out of range. *)
Theorem statementForDropJob_outside_plan (cs : scpb.CurrentState)
    (md : targetsWithElementMap) (e : scpb.Element) :
  makeTargetsWithElementMap cs = Returns md ->
  e ∉ elements_of cs ->
  (forall t0, scpb.Targets (scpb.CurrentState_TargetState cs) !! 0 = Some t0 ->
              statementForDropJob e md
              = statementForDropJob (scpb.Target_Element t0) md) /\
  (scpb.Targets (scpb.CurrentState_TargetState cs) = [] ->
   statementForDropJob e md = Panics (RuntimeError "index out of range")).
Proof.
  intros Hmk He.
  apply makeTargetsWithElementMap_Returns_inv in Hmk as (HT & _ & _ & Hm).
  assert (elementToTarget md !! e = None) as Hnone.
  { destruct (elementToTarget md !! e) as [i|] eqn:Hi; [|reflexivity].
    exfalso. apply He. apply Hm in Hi as [_ Hi]. eapply list_elem_of_lookup_2, Hi. }
  split.
  - intros t0 Ht0.
    assert (elementToTarget md !! scpb.Target_Element t0 = Some 0) as H0.
    { apply Hm. unfold elements_of. rewrite length_fmap, list_lookup_fmap, Ht0.
      split; [eapply lookup_lt_Some, Ht0 | reflexivity]. }
    unfold statementForDropJob. rewrite Hnone, H0. reflexivity.
  - intros Hnil. unfold statementForDropJob. rewrite Hnone, HT, Hnil. reflexivity.
Qed.

(** X11: a statement id that is not an index of the statements of the plan: for an
    element of the index, [statementForDropJob] panics with the run-time error
    of the index out of range, and so does [newLogEventBase], after it has
    copied the metadata and the authorization. *)
Theorem statement_id_out_of_range (e : scpb.Element) (md : targetsWithElementMap)
    (idx : nat) (t : scpb.Target) :
  elementToTarget md !! e = Some idx ->
  scpb.Targets (TargetState md) !! idx = Some t ->
  length (scpb.Statements (TargetState md))
  <= N.to_nat (scpb.StatementID (scpb.Metadata t)) ->
  statementForDropJob e md = Panics (RuntimeError "index out of range") /\
  forall depth h tm ta,
    content depth h (scpb.TargetMetadata_fields (scpb.Metadata t)) = Some tm ->
    content depth h (scpb.Authorization_fields
                       (scpb.TargetState_Authorization (TargetState md))) = Some ta ->
    newLogEventBase depth e md h = Panics (RuntimeError "index out of range").
Proof.
  intros He Ht Hlen. apply lookup_ge_None_2 in Hlen. split.
  - unfold statementForDropJob, index. rewrite He.
    change (default 0 (Some idx)) with idx. rewrite Ht. cbn [mbind outcome_bind].
    rewrite Hlen. reflexivity.
  - intros depth h tm ta Htm Hta. unfold newLogEventBase, index. rewrite He, Ht.
    cbn [mbind outcome_bind].
    destruct (@protoutil.Clone_deep _ scpb.TargetMetadata_message depth
                (scpb.Metadata t) h tm (fun _ _ => eq_refl) Htm)
      as (o1 & h1 & -> & H01 & _).
    cbn [mbind outcome_bind].
    apply (protoutil.content_mono depth h h1 _ _ H01) in Hta.
    destruct (@protoutil.Clone_deep _ scpb.Authorization_message depth
                (scpb.TargetState_Authorization (TargetState md)) h1 ta
                (fun _ _ => eq_refl) Hta) as (o2 & h2 & -> & _ & _).
    cbn [mbind outcome_bind]. rewrite Hlen. reflexivity.
Qed.

(** [Clone] of the message that holds the pointer to an element whose struct
    has a tree: the copy points to a new cell, which holds a copy of the
    struct. *)
Lemma Clone_ElementProto (depth : nat) (p : scpb.ElementProto) (h : heap)
    (ts : list tree) :
  content depth h [Ref (scpb.Element_ptr (scpb.ElementProto_element p))] = Some ts ->
  exists l' h',
    protoutil.Clone depth p h
    = Returns (scpb.mkElementProto
                 (scpb.mkElement (scpb.Element_struct (scpb.ElementProto_element p)) l'),
               h') /\
    h ⊆ h' /\ (l' ∉ dom h) /\
    forall h'', protoutil.keeps_new h h' h'' -> content depth h'' [Ref l'] = Some ts.
Proof.
  intros Hts.
  destruct (protoutil.clone_copies depth _ _ _ Hts) as (o' & h' & Hc & Hsub & Hk).
  rewrite protoutil.content_unfold in Hts. cbn in Hts.
  destruct depth as [|d]; [discriminate|]. cbn in Hts.
  destruct (h !! scpb.Element_ptr (scpb.ElementProto_element p)) as [c|] eqn:Hl;
    [|discriminate].
  destruct (content d h c) as [tc|] eqn:Htc; [|discriminate].
  destruct (protoutil.clone_copies d _ _ _ Htc) as (c' & h1 & Hc1 & H01 & _).
  rewrite protoutil.clone_unfold in Hc. cbn in Hc. rewrite Hl, Hc1 in Hc.
  injection Hc as <- <-.
  eexists _, _. split; [|split; [exact Hsub|split; [|exact Hk]]].
  - unfold protoutil.Clone. cbn [fields scpb.ElementProto_message].
    rewrite protoutil.clone_unfold. cbn. rewrite Hl, Hc1. reflexivity.
  - intros Hin. apply (is_fresh (dom h1)). eapply subseteq_dom; eauto.
Qed.

Lemma newLogEventBase_Returns (depth : nat) (e : scpb.Element)
    (md : targetsWithElementMap) (h : heap)
    (idx : nat) (t : scpb.Target) (s : scpb.Statement) (tm ta : list tree) :
  elementToTarget md !! e = Some idx ->
  scpb.Targets (TargetState md) !! idx = Some t ->
  scpb.Statements (TargetState md) !! N.to_nat (scpb.StatementID (scpb.Metadata t))
  = Some s ->
  content depth h (scpb.TargetMetadata_fields (scpb.Metadata t)) = Some tm ->
  content depth h (scpb.Authorization_fields
                     (scpb.TargetState_Authorization (TargetState md))) = Some ta ->
  exists base h1, newLogEventBase depth e md h = Returns (base, h1) /\ h ⊆ h1.
Proof.
  intros He Ht Hs Htm Hta. unfold newLogEventBase, index. rewrite He, Ht.
  cbn [mbind outcome_bind].
  destruct (@protoutil.Clone_deep _ scpb.TargetMetadata_message depth
              (scpb.Metadata t) h tm (fun _ _ => eq_refl) Htm)
    as (o1 & h1 & -> & H01 & _).
  cbn [mbind outcome_bind].
  apply (protoutil.content_mono depth h h1 _ _ H01) in Hta.
  destruct (@protoutil.Clone_deep _ scpb.Authorization_message depth
              (scpb.TargetState_Authorization (TargetState md)) h1 ta
              (fun _ _ => eq_refl) Hta) as (o2 & h2 & -> & H12 & _).
  cbn [mbind outcome_bind]. rewrite Hs. cbn [mbind outcome_bind].
  eexists _, _. split; [reflexivity | etrans; eauto].
Qed.

(** X12: [newLogEventOp] on an element of the index whose statement exists and
    whose messages are in the heap: the log event holds the base event that
    [newLogEventBase] returns, the status of the target, and an element of the
    same struct type at a location that the heap did not have, with the tree
    of the element of the target, in every later heap that keeps the cells of
    the copy; no cell of the heap changes. *)
Theorem newLogEventOp_present (depth : nat) (e : scpb.Element)
    (md : targetsWithElementMap) (h : heap)
    (idx : nat) (t : scpb.Target) (s : scpb.Statement) (tm ta te : list tree) :
  elementToTarget md !! e = Some idx ->
  scpb.Targets (TargetState md) !! idx = Some t ->
  scpb.Statements (TargetState md) !! N.to_nat (scpb.StatementID (scpb.Metadata t))
  = Some s ->
  content depth h (scpb.TargetMetadata_fields (scpb.Metadata t)) = Some tm ->
  content depth h (scpb.Authorization_fields
                     (scpb.TargetState_Authorization (TargetState md))) = Some ta ->
  content depth h [Ref (scpb.Element_ptr (scpb.Target_Element t))] = Some te ->
  exists base h1 l' h2,
    newLogEventBase depth e md h = Returns (base, h1) /\
    newLogEventOp depth e md h
    = Returns (scop.mkLogEvent base
                 (scpb.mkElementProto
                    (scpb.mkElement (scpb.Element_struct (scpb.Target_Element t)) l'))
                 (scpb.TargetStatus t),
               h2) /\
    (l' ∉ dom h) /\ h ⊆ h2 /\
    forall h'', protoutil.keeps_new h h2 h'' -> content depth h'' [Ref l'] = Some te.
Proof.
  intros He Ht Hs Htm Hta Hte.
  destruct (newLogEventBase_Returns depth e md h idx t s tm ta He Ht Hs Htm Hta)
    as (base & h1 & Hbase & H01).
  apply (protoutil.content_mono depth h h1 _ _ H01) in Hte.
  destruct (Clone_ElementProto depth (scpb.Target_ElementProto t) h1 te Hte)
    as (l' & h2 & Hcl & H12 & Hl' & Hk).
  exists base, h1, l', h2. split; [exact Hbase|]. split; [|split; [|split]].
  - unfold newLogEventOp, index. rewrite He, Ht. cbn [mbind outcome_bind].
    rewrite Hbase. cbn [mbind outcome_bind]. rewrite Hcl. reflexivity.
  - intros Hin. apply Hl'. eapply subseteq_dom; eauto.
  - etrans; eauto.
  - intros h'' Hh''. apply Hk. eapply protoutil.keeps_new_rest; eauto.
Qed.

(** X13: the index and the drop-job builder together: after
    [makeTargetsWithElementMap], the builder called on the element of a target
    answers with the statement of this very target, and with the rollback
    flag of the state. *)
Theorem statementForDropJob_of_target (cs : scpb.CurrentState)
    (md : targetsWithElementMap) (i : nat) (t : scpb.Target) (s : scpb.Statement) :
  makeTargetsWithElementMap cs = Returns md ->
  scpb.Targets (scpb.CurrentState_TargetState cs) !! i = Some t ->
  scpb.Statements (scpb.CurrentState_TargetState cs)
  !! N.to_nat (scpb.StatementID (scpb.Metadata t)) = Some s ->
  statementForDropJob (scpb.Target_Element t) md
  = Returns {| scop.StatementForDropJob_Statement :=
                 StripMarkers (scpb.RedactedStatement s);
               scop.StatementForDropJob_StatementID :=
                 scpb.StatementID (scpb.Metadata t);
               scop.StatementForDropJob_Rollback := scpb.CurrentState_InRollback cs |}.
Proof.
  intros Hmk Ht Hs.
  apply makeTargetsWithElementMap_Returns_inv in Hmk as (HT & HR & _ & Hm).
  assert (elementToTarget md !! scpb.Target_Element t = Some i) as Hi.
  { apply Hm. unfold elements_of. rewrite length_fmap, list_lookup_fmap, Ht.
    split; [eapply lookup_lt_Some, Ht | reflexivity]. }
  unfold statementForDropJob, index. rewrite Hi, HT, HR.
  change (default 0 (Some i)) with i. rewrite Ht. cbn [mbind outcome_bind].
  rewrite Hs. reflexivity.
Qed.

End opgen.

(** ** A plan and a group, for the instances below *)

Definition Column1 : scpb.Element := scpb.mkElement "scpb.Column" 1%positive.
Definition Column2 : scpb.Element := scpb.mkElement "scpb.Column" 2%positive.
Definition Table3 : scpb.Element := scpb.mkElement "scpb.Table" 3%positive.

Definition ptr_to_struct (name : string) : reflect.Type_ :=
  reflect.PtrTo (reflect.Atom name reflect.LStruct).

(** Method sets for the instances: three operation types of one category
    each, [scop.LogEvent] with [scop.Op] alone, and a type with the methods of
    both [scop.MutationOp] and [scop.ValidationOp]. *)
Definition implements_example (t : reflect.Type_) (i : scop.InterfaceType) : bool :=
  match t with
  | reflect.PtrTo (reflect.Atom name reflect.LStruct) =>
      match i with
      | scop.Op_interface =>
          bool_decide (name ∈ ["scop.MakeAddedColumnDeleteOnly"; "scop.MakeColumnPublic";
                               "scop.ValidateUniqueIndex"; "scop.BackfillIndex";
                               "scop.LogEvent"; "scop.MutateAndValidate"])
      | scop.MutationOp_interface =>
          bool_decide (name ∈ ["scop.MakeAddedColumnDeleteOnly"; "scop.MakeColumnPublic";
                               "scop.MutateAndValidate"])
      | scop.ValidationOp_interface =>
          bool_decide (name ∈ ["scop.ValidateUniqueIndex"; "scop.MutateAndValidate"])
      | scop.BackfillOp_interface => bool_decide (name = "scop.BackfillIndex")
      end
  | _ => false
  end.

Definition ElementString_example (e : scpb.Element) : string :=
  scpb.Element_struct e.

(** The markers of a redactable string are the characters U+2039 and U+203A,
    three bytes each in UTF-8. *)
Fixpoint StripMarkers_example (s : string) : string :=
  match s with
  | EmptyString => EmptyString
  | String a s' =>
      match s' with
      | String b (String c r) =>
          if ((Ascii.nat_of_ascii a =? 226)%nat && (Ascii.nat_of_ascii b =? 128)%nat &&
              ((Ascii.nat_of_ascii c =? 185)%nat || (Ascii.nat_of_ascii c =? 186)%nat))%bool
          then StripMarkers_example r
          else String a (StripMarkers_example s')
      | _ => String a (StripMarkers_example s')
      end
  end.

(** A function of the element, a function of the element and the index that
    returns nil, and a function of the element and the index that reads the
    rollback flag. *)
Definition addColumn : Candidate :=
  mkCandidate (reflect.FuncOf [scpb.TypeOf Column1]
                              [ptr_to_struct "scop.MakeAddedColumnDeleteOnly"])
              (fun _ => Some [Scalar 1%Z]).

Definition notApplicable : Candidate :=
  mkCandidate (reflect.FuncOf [scpb.TypeOf Column1; targetsWithElementMap_ptr]
                              [ptr_to_struct "scop.MakeColumnPublic"])
              (fun _ => None).

Definition publishColumn : Candidate :=
  mkCandidate (reflect.FuncOf [scpb.TypeOf Column1; targetsWithElementMap_ptr]
                              [ptr_to_struct "scop.MakeColumnPublic"])
              (fun args =>
                 match args with
                 | [ValueOfElement e; ValueOfMeta md] =>
                     Some [Str (scpb.Element_struct e);
                           Scalar (if InRollback md then 1%Z else 0%Z)]
                 | _ => Some []
                 end).

Definition validateIndex : Candidate :=
  mkCandidate (reflect.FuncOf [scpb.TypeOf Column1]
                              [ptr_to_struct "scop.ValidateUniqueIndex"])
              (fun _ => Some [Scalar 2%Z]).

Definition logEvent : Candidate :=
  mkCandidate (reflect.FuncOf [scpb.TypeOf Column1; targetsWithElementMap_ptr]
                              [ptr_to_struct "scop.LogEvent"])
              (fun _ => Some []).



(** A plan with a target for [Column1] and one for [Table3]; the metadata of
    the first refers to the cell 10 of the heap, the authorization to the
    cell 11. *)
Definition drop_statement : scpb.Statement :=
  scpb.mkStatement "DROP TABLE t" "DROP TABLE ‹t›" "DROP TABLE".

Definition plan_statements : list scpb.Statement := [drop_statement].

Definition column_target : scpb.Target :=
  scpb.mkTarget (scpb.mkElementProto Column1)
                (scpb.mkTargetMetadata 0%N [Scalar 1%Z; Ref 10%positive]) 2%Z.

Definition table_target : scpb.Target :=
  scpb.mkTarget (scpb.mkElementProto Table3)
                (scpb.mkTargetMetadata 0%N [Scalar 2%Z; Nil]) 2%Z.

Definition plan_targets : list scpb.Target := [column_target; table_target].

Definition plan_state : scpb.CurrentState :=
  scpb.mkCurrentState
    (scpb.mkTargetState plan_targets plan_statements
                        (scpb.mkAuthorization [Str "root"; Ref 11%positive]))
    true.

Definition plan_index : targetsWithElementMap :=
  mkTargetsWithElementMap (scpb.CurrentState_TargetState plan_state)
                          (<[Table3 := 1]> (<[Column1 := 0]> ∅)) true.

Definition plan_heap : heap :=
  <[10%positive := [Str "source"; Scalar 7%Z]]> (<[11%positive := [Str "app"]]> ∅).

(** A state in which two targets hold the same element. *)
Definition duplicate_state : scpb.CurrentState :=
  scpb.mkCurrentState
    (scpb.mkTargetState
       (plan_targets ++ [scpb.mkTarget (scpb.mkElementProto Column1)
                                       (scpb.mkTargetMetadata 0%N []) 1%Z])
       plan_statements (scpb.mkAuthorization []))
    false.

Example makeTargetsWithElementMap_plan :
  makeTargetsWithElementMap ElementString_example plan_state = Returns plan_index.
Proof. vm_compute. reflexivity. Qed.

Example StripMarkers_example_plan :
  StripMarkers_example "DROP TABLE ‹t›" = "DROP TABLE t".
Proof. reflexivity. Qed.

Example makeOpsFunc_mixed :
  makeOpsFunc implements_example Column1 [addColumn; validateIndex]
  = Err (Errorf "conflicting operation types for %T: %s != %s"
                [ArgType (scpb.TypeOf Column1); ArgOpType scop.MutationType;
                 ArgOpType scop.ValidationType]).
Proof. reflexivity. Qed.

Example makeOpsFunc_logEvent :
  makeOpsFunc implements_example Column1 [addColumn; logEvent]
  = Err (AssertionFailedf "%s implemented %s but does not conform to any known type"
                          [ArgType (ptr_to_struct "scop.LogEvent");
                           ArgInterfaceType scop.Op_interface]).
Proof. reflexivity. Qed.

(** ** Instances of the claims *)







Lemma makeOpsFunc_one_category_witness :
  makeOpsFunc implements_example Column1 [addColumn; publishColumn; validateIndex; logEvent]
  = Err (Errorf "conflicting operation types for %T: %s != %s"
                [ArgType (scpb.TypeOf Column1); ArgOpType scop.MutationType;
                 ArgOpType scop.ValidationType]) /\
  makeOpsFunc implements_example Column1 [addColumn; publishColumn]
  = Ok (opsFunc_of implements_example [addColumn; publishColumn], scop.MutationType).
Proof.
  split.
  - refine (proj1 (proj2 (makeOpsFunc_one_category implements_example Column1))
              addColumn [publishColumn] validateIndex [logEvent]
              scop.MutationType scop.ValidationType _ _ _).
    + repeat constructor.
    + reflexivity.
    + discriminate.
  - refine (proj2 (proj2 (makeOpsFunc_one_category implements_example Column1))
              addColumn [publishColumn] scop.MutationType _).
    repeat constructor.
Defined.


Lemma makeTargetsWithElementMap_unique_witness :
  exists md,
    makeTargetsWithElementMap ElementString_example plan_state = Returns md /\
    TargetState md = scpb.CurrentState_TargetState plan_state /\
    InRollback md = true /\
    (forall i t, plan_targets !! i = Some t ->
                 elementToTarget md !! scpb.Target_Element t = Some i) /\
    (forall e i, elementToTarget md !! e = Some i ->
                 exists t, scpb.Targets (TargetState md) !! i = Some t /\
                           scpb.Target_Element t = e).
Proof.
  refine (makeTargetsWithElementMap_unique ElementString_example plan_state _).
  apply (bool_decide_unpack _). vm_compute. exact I.
Defined.

Lemma makeTargetsWithElementMap_duplicate_witness :
  exists args,
    makeTargetsWithElementMap ElementString_example duplicate_state
    = Panics (PanicError (AssertionFailedf "duplicate targets for %s: %v and %v" args)) /\
    IsAssertionFailure (AssertionFailedf "duplicate targets for %s: %v and %v" args) = true.
Proof.
  refine (makeTargetsWithElementMap_duplicate ElementString_example duplicate_state
            0 2 _ _ _ _ _ _); [lia | reflexivity | reflexivity | reflexivity].
Defined.

Lemma statementForDropJob_present_witness :
  statementForDropJob StripMarkers_example Column1 plan_index
  = Returns (scop.mkStatementForDropJob "DROP TABLE t" 0%N true).
Proof.
  refine (statementForDropJob_present StripMarkers_example Column1 plan_index 0
            column_target drop_statement _ _ _);
    reflexivity.
Defined.

(** C7 fails on [statementForDropJob]: [Column2] has no target in the plan,
    and yet the builder returns, with the statement of the target at index 0;
    the other two builders panic with the assertion failure. *)
Theorem statementForDropJob_unchecked_lookup :
  elementToTarget plan_index !! Column2 = None /\
  statementForDropJob StripMarkers_example Column2 plan_index
  = Returns (scop.mkStatementForDropJob "DROP TABLE t" 0%N true) /\
  newLogEventBase ElementString_example 2 Column2 plan_index plan_heap
  = Panics (PanicError (AssertionFailedf "could not find element %s in target state"
                                         [ArgString "scpb.Column"])) /\
  newLogEventOp ElementString_example 2 Column2 plan_index plan_heap
  = Panics (PanicError (AssertionFailedf "could not find element %s in target state"
                                         [ArgString "scpb.Column"])).
Proof. repeat split; vm_compute; reflexivity. Qed.

Lemma newLogEventBase_defensive_copies_witness :
  exists ev h',
    newLogEventBase ElementString_example 2 Column1 plan_index plan_heap
    = Returns (ev, h') /\
    plan_heap ⊆ h' /\
    scpb.StatementID (scop.EventBase_TargetMetadata ev) = 0%N /\
    scop.EventBase_Statement ev = "DROP TABLE ‹t›" /\
    scop.EventBase_StatementTag ev = "DROP TABLE" /\
    (forall h'',
        protoutil.keeps_new plan_heap h' h'' ->
        content 2 h'' (scpb.TargetMetadata_fields (scop.EventBase_TargetMetadata ev))
        = Some [TScalar 1; TNode [TStr "source"; TScalar 7]] /\
        content 2 h'' (scpb.Authorization_fields (scop.EventBase_Authorization ev))
        = Some [TStr "root"; TNode [TStr "app"]]) /\
    (forall l c,
        l ∈ dom plan_heap ->
        content 2 (<[l := c]> h')
                (scpb.TargetMetadata_fields (scop.EventBase_TargetMetadata ev))
        = Some [TScalar 1; TNode [TStr "source"; TScalar 7]] /\
        content 2 (<[l := c]> h')
                (scpb.Authorization_fields (scop.EventBase_Authorization ev))
        = Some [TStr "root"; TNode [TStr "app"]]).
Proof.
  refine (newLogEventBase_defensive_copies ElementString_example 2 Column1 plan_index
            plan_heap 0 column_target drop_statement
            [TScalar 1; TNode [TStr "source"; TScalar 7]]
            [TStr "root"; TNode [TStr "app"]] _ _ _ _ _);
    reflexivity.
Defined.

(** The heap tells a copy from a shared cell: after the call on the plan
    above, writing to the cell 10 of the original metadata changes the tree of
    the original, and not the tree of the metadata of the event. *)
Example write_after_newLogEventBase :
  exists ev h',
    newLogEventBase ElementString_example 2 Column1 plan_index plan_heap
    = Returns (ev, h') /\
    content 2 (<[10%positive := [Str "changed"]]> h')
            (scpb.TargetMetadata_fields (scpb.Metadata column_target))
    = Some [TScalar 1; TNode [TStr "changed"]] /\
    content 2 (<[10%positive := [Str "changed"]]> h')
            (scpb.TargetMetadata_fields (scop.EventBase_TargetMetadata ev))
    = Some [TScalar 1; TNode [TStr "source"; TScalar 7]].
Proof. eexists _, _. split; [vm_compute; reflexivity|]. split; vm_compute; reflexivity. Qed.

(** ** Instances of the further properties *)

(** A plan whose only target refers to a statement that the plan does not
    have, and a heap that also holds the struct of [Column1]. *)
Definition dangling_index : targetsWithElementMap :=
  mkTargetsWithElementMap
    (scpb.mkTargetState
       [scpb.mkTarget (scpb.mkElementProto Column1) (scpb.mkTargetMetadata 5%N []) 2%Z]
       plan_statements (scpb.mkAuthorization []))
    (<[Column1 := 0]> ∅) false.

Definition plan_heap_with_column : heap :=
  <[1%positive := [Str "c"; Scalar 4%Z]]> plan_heap.

Lemma makeOpsFunc_app_witness :
  exists f1 ty1 f2 ty2,
    makeOpsFunc implements_example Column1 [addColumn] = Ok (f1, ty1) /\
    makeOpsFunc implements_example Column1 [notApplicable; publishColumn] = Ok (f2, ty2) /\
    ([addColumn] <> [] -> ty1 = scop.MutationType) /\
    ([notApplicable; publishColumn] <> [] -> ty2 = scop.MutationType) /\
    forall element md log,
      opsFunc_of implements_example [addColumn; notApplicable; publishColumn]
                 element md log
      = ('(ops1, log1) ← f1 element md log;
         '(ops2, log2) ← f2 element md log1;
         Returns (ops1 ++ ops2, log2)).
Proof.
  refine (makeOpsFunc_app implements_example Column1 [addColumn]
            [notApplicable; publishColumn] _ scop.MutationType _).
  reflexivity.
Defined.


Lemma opsFunc_other_kind_panics_witness :
  opsFunc_of implements_example [addColumn; publishColumn] Table3 plan_index []
  = Panics (ReflectError "reflect: Call using a value as a parameter of another type").
Proof.
  refine (opsFunc_other_kind_panics implements_example Column1 addColumn [publishColumn]
            _ scop.MutationType Table3 plan_index [] _ _); [reflexivity | discriminate].
Defined.


Lemma makeOpsFunc_first_error_witness :
  makeOpsFunc implements_example Column1 [addColumn; logEvent; validateIndex]
  = Err (AssertionFailedf "%s implemented %s but does not conform to any known type"
                          [ArgType (ptr_to_struct "scop.LogEvent");
                           ArgInterfaceType opInterfaceType]).
Proof.
  refine (makeOpsFunc_first_error implements_example Column1 scop.MutationType
            [addColumn] logEvent [validateIndex] _ _ _); [|reflexivity].
  repeat constructor.
Defined.

Lemma makeTargetsWithElementMap_one_entry_per_target_witness :
  size (elementToTarget plan_index) = length (scpb.Targets (TargetState plan_index)) /\
  (forall e, is_Some (elementToTarget plan_index !! e) <-> e ∈ elements_of plan_state) /\
  (forall e e' i, elementToTarget plan_index !! e = Some i ->
                  elementToTarget plan_index !! e' = Some i -> e = e').
Proof.
  refine (makeTargetsWithElementMap_one_entry_per_target ElementString_example
            plan_state plan_index _).
  vm_compute. reflexivity.
Defined.

Lemma makeTargetsWithElementMap_duplicate_report_witness :
  makeTargetsWithElementMap ElementString_example duplicate_state
  = Panics (PanicError (AssertionFailedf "duplicate targets for %s: %v and %v"
              [ArgString "scpb.Column"; ArgInt 1; ArgInt 2])).
Proof.
  refine (makeTargetsWithElementMap_duplicate_report ElementString_example
            duplicate_state 0 2 column_target
            (scpb.mkTarget (scpb.mkElementProto Column1)
                           (scpb.mkTargetMetadata 0%N []) 1%Z) _ _ _ _ _);
    try reflexivity; [lia|].
  apply (bool_decide_unpack _). vm_compute. exact I.
Defined.

Lemma log_builders_outside_plan_witness :
  newLogEventBase ElementString_example 2 Column2 plan_index plan_heap
  = Panics (PanicError (AssertionFailedf "could not find element %s in target state"
                                         [ArgString "scpb.Column"])) /\
  newLogEventOp ElementString_example 2 Column2 plan_index plan_heap
  = Panics (PanicError (AssertionFailedf "could not find element %s in target state"
                                         [ArgString "scpb.Column"])).
Proof.
  refine (log_builders_outside_plan ElementString_example plan_state plan_index
            2 Column2 plan_heap _ _).
  - vm_compute. reflexivity.
  - apply (bool_decide_unpack _). vm_compute. exact I.
Defined.

Lemma statementForDropJob_outside_plan_witness :
  (forall t0, plan_targets !! 0 = Some t0 ->
              statementForDropJob StripMarkers_example Column2 plan_index
              = statementForDropJob StripMarkers_example (scpb.Target_Element t0)
                                    plan_index) /\
  (plan_targets = [] ->
   statementForDropJob StripMarkers_example Column2 plan_index
   = Panics (RuntimeError "index out of range")).
Proof.
  refine (statementForDropJob_outside_plan ElementString_example StripMarkers_example
            plan_state plan_index Column2 _ _).
  - vm_compute. reflexivity.
  - apply (bool_decide_unpack _). vm_compute. exact I.
Defined.

Lemma statement_id_out_of_range_witness :
  statementForDropJob StripMarkers_example Column1 dangling_index
  = Panics (RuntimeError "index out of range") /\
  forall depth h tm ta,
    content depth h [] = Some tm ->
    content depth h [] = Some ta ->
    newLogEventBase ElementString_example depth Column1 dangling_index h
    = Panics (RuntimeError "index out of range").
Proof.
  refine (statement_id_out_of_range ElementString_example StripMarkers_example
            Column1 dangling_index 0
            (scpb.mkTarget (scpb.mkElementProto Column1)
                           (scpb.mkTargetMetadata 5%N []) 2%Z) _ _ _).
  - reflexivity.
  - reflexivity.
  - vm_compute. lia.
Defined.

Lemma newLogEventOp_present_witness :
  exists base h1 l' h2,
    newLogEventBase ElementString_example 2 Column1 plan_index plan_heap_with_column
    = Returns (base, h1) /\
    newLogEventOp ElementString_example 2 Column1 plan_index plan_heap_with_column
    = Returns (scop.mkLogEvent base
                 (scpb.mkElementProto (scpb.mkElement "scpb.Column" l')) 2%Z, h2) /\
    (l' ∉ dom plan_heap_with_column) /\ plan_heap_with_column ⊆ h2 /\
    forall h'', protoutil.keeps_new plan_heap_with_column h2 h'' ->
                content 2 h'' [Ref l'] = Some [TNode [TStr "c"; TScalar 4]].
Proof.
  refine (newLogEventOp_present ElementString_example 2 Column1 plan_index
            plan_heap_with_column 0 column_target drop_statement
            [TScalar 1; TNode [TStr "source"; TScalar 7]]
            [TStr "root"; TNode [TStr "app"]]
            [TNode [TStr "c"; TScalar 4]] _ _ _ _ _ _);
    reflexivity.
Defined.

Lemma statementForDropJob_of_target_witness :
  statementForDropJob StripMarkers_example Table3 plan_index
  = Returns (scop.mkStatementForDropJob "DROP TABLE t" 0%N true).
Proof.
  refine (statementForDropJob_of_target ElementString_example StripMarkers_example
            plan_state plan_index 1 table_target drop_statement _ _ _);
    [vm_compute; reflexivity | reflexivity | reflexivity].
Defined.

End opgen.

(** * The generator of the logging boilerplate

    [pkg/util/log/gen/main.go]: [readInput], which reads the severities and
    the channels off the enumerations of a [.proto] file. A Go string is its
    sequence of bytes. *)

(** ** Package [strings] *)

Module strings.

Definition newline : string := String (Ascii.ascii_of_nat 10) EmptyString.

(** [strings.HasPrefix]. *)
Fixpoint HasPrefix (s prefix : string) : bool :=
  match prefix with
  | EmptyString => true
  | String c prefix' =>
      match s with
      | EmptyString => false
      | String d s' => Ascii.eqb d c && HasPrefix s' prefix'
      end
  end.

Fixpoint drop (n : nat) (s : string) : string :=
  match n, s with
  | S n', String _ s' => drop n' s'
  | _, _ => s
  end.

(** [strings.TrimPrefix]. *)
Definition TrimPrefix (s prefix : string) : string :=
  if HasPrefix s prefix then drop (String.length prefix) s else s.

(** [strings.ReplaceAll] for a pattern [old] that is not empty: the
    occurrences of [old] are taken from the left and do not overlap. [skip]
    counts the bytes of an occurrence that are still to pass. *)
Fixpoint replace_from (old new : string) (skip : nat) (s : string) : string :=
  match s with
  | EmptyString => EmptyString
  | String c s' =>
      match skip with
      | S skip' => replace_from old new skip' s'
      | O =>
          if HasPrefix s old
          then new +:+ replace_from old new (String.length old - 1) s'
          else String c (replace_from old new 0 s')
      end
  end.

Definition ReplaceAll (s old new : string) : string := replace_from old new 0 s.

(** [strings.Split] for a separator that is not empty; [cur] is the piece
    read so far. *)
Fixpoint split_from (sep : string) (skip : nat) (cur : string) (s : string)
  : list string :=
  match s with
  | EmptyString => [cur]
  | String c s' =>
      match skip with
      | S skip' => split_from sep skip' cur s'
      | O =>
          if HasPrefix s sep
          then cur :: split_from sep (String.length sep - 1) EmptyString s'
          else split_from sep 0 (cur +:+ String c EmptyString) s'
      end
  end.

Definition Split (s sep : string) : list string := split_from sep 0 EmptyString s.

Lemma split_from_not_nil (sep : string) (s : string) :
  forall skip cur, split_from sep skip cur s <> [].
Proof.
  induction s as [|c s IH]; intros skip cur; simpl; [discriminate|].
  destruct skip; [|apply IH].
  destruct (match sep with EmptyString => true | _ => _ end); [discriminate | apply IH].
Qed.

Example Split_lines :
  Split ("a b" +:+ newline +:+ newline +:+ "c") newline = ["a b"; ""; "c"].
Proof. reflexivity. Qed.

Example Split_no_separator : Split "" " " = [""].
Proof. reflexivity. Qed.

Example ReplaceAll_comment :
  ReplaceAll (ReplaceAll "// The `DEV` channel//is" "// " "") "//" "" = "The `DEV` channelis".
Proof. reflexivity. Qed.

End strings.

(** ** The package of [gen/main.go] *)

Module gen.
Import strings.

Record info : Set := mkInfo {
  RawComment : string;
  Comment : string;
  PComment : string;
  Name : string;
  NAME : string;
  NameLower : string;
}.

(** What [os.ReadFile] gives: the bytes of the file, or an error. *)
Inductive fileResult : Set :=
| FileData (protoData : string)
| FileError (err : string).

(** The variables of the loop of [readInput], with the two results. *)
Record state : Set := mkState {
  inSevs : bool;
  inChans : bool;
  rawComment : string;
  chans : list info;
  sevs : list info;
}.

Definition start : state := mkState false false EmptyString [] [].

Section gen.

(** [strings.TrimSpace], [strings.ToLower], [strings.ToUpper], which follow
    the Unicode tables, and the title case of [golang.org/x/text/cases] for
    English without lowering. *)
Variable TrimSpace : string -> string.
Variable ToLower : string -> string.
Variable ToUpper : string -> string.
Variable Title : string -> string.
(** [os.ReadFile]. *)
Variable ReadFile : string -> fileResult.

(** The struct that [readInput] appends for the key [key], in the
    enumeration of the severities ([what] is [severity]) or of the channels
    ([what] is [channel]); the two literals of the source differ in this word
    only. *)
Definition entry (what key rawComment : string) : info :=
  let title :=
    ReplaceAll (Title (ReplaceAll (ToLower key) "_" " ")) " " EmptyString in
  let comment :=
    "// The `" +:+ key +:+ "` " +:+ what +:+ TrimPrefix rawComment ("// " +:+ key) in
  {| RawComment := rawComment;
     Comment := comment;
     PComment := ReplaceAll (ReplaceAll comment "// " EmptyString) "//" EmptyString;
     Name := title;
     NAME := ToUpper key;
     NameLower := ToLower key |}.

(** One turn of the loop of [readInput], on one piece of the split. *)
Definition readLine (st : state) (line : string) : state :=
  let line := TrimSpace line in
  if String.eqb line EmptyString then st
  else if negb (inSevs st) && negb (inChans st) && HasPrefix line "enum Severity" then
    mkState true (inChans st) (rawComment st) (chans st) (sevs st)
  else if inSevs st && negb (inChans st) && HasPrefix line "}" then
    mkState false (inChans st) (rawComment st) (chans st) (sevs st)
  else if negb (inSevs st) && negb (inChans st) && HasPrefix line "enum Channel" then
    mkState (inSevs st) true (rawComment st) (chans st) (sevs st)
  else if negb (inSevs st) && inChans st && HasPrefix line "}" then
    mkState (inSevs st) false (rawComment st) (chans st) (sevs st)
  else if negb (inSevs st) && negb (inChans st) then st
  else if HasPrefix line "//" then
    mkState (inSevs st) (inChans st) (rawComment st +:+ line +:+ newline)
            (chans st) (sevs st)
  else if HasPrefix line "reserved" then
    mkState (inSevs st) (inChans st) EmptyString (chans st) (sevs st)
  else
    let key := match Split line " " with k :: _ => k | [] => EmptyString end in
    let sevs' :=
      if inSevs st then sevs st ++ [entry "severity" key (rawComment st)]
      else sevs st in
    let chans' :=
      if inChans st && negb (String.eqb key "CHANNEL_MAX")
      then chans st ++ [entry "channel" key (rawComment st)]
      else chans st in
    mkState (inSevs st) (inChans st) EmptyString chans' sevs'.

(** [readInput]: the channels, the severities and the error. *)
Definition readInput (protoName : string) : list info * list info * option string :=
  match ReadFile protoName with
  | FileError err => ([], [], Some err)
  | FileData protoData =>
      let st := fold_left readLine (Split protoData newline) start in
      (chans st, sevs st, None)
  end.

(** ** What [readInput] keeps *)

Lemma append_assoc (a b c : string) : (a +:+ b) +:+ c = a +:+ b +:+ c.
Proof.
  induction a as [|x a IH]; [reflexivity|].
  change (String x ((a +:+ b) +:+ c) = String x (a +:+ b +:+ c)). f_equal. exact IH.
Qed.

(** A raw comment is a block of comment lines: trimmed lines that start with
    [//], each followed by a line feed. *)
Definition comment_block (ls : list string) : string :=
  fold_right (fun l acc => l +:+ newline +:+ acc) EmptyString ls.

Definition comment_lines (ls : list string) : Prop :=
  Forall (fun l => HasPrefix l "//" = true) ls.

Lemma append_nil_r (a : string) : a +:+ EmptyString = a.
Proof.
  induction a as [|x a IH]; [reflexivity|].
  change (String x (a +:+ EmptyString) = String x a). f_equal. exact IH.
Qed.

Lemma comment_block_snoc (ls : list string) (l : string) :
  comment_block (ls ++ [l]) = comment_block ls +:+ l +:+ newline.
Proof.
  unfold comment_block. induction ls as [|x ls IH]; cbn [app fold_right].
  - rewrite append_nil_r. reflexivity.
  - rewrite IH, !append_assoc. reflexivity.
Qed.

(** The invariant of the loop after [n] turns: the loop is in one enumeration
    at most; the pending comment is a block of comment lines; every channel
    was appended for a key other than [CHANNEL_MAX] and every severity for
    some key, each with a block of comment lines as its raw comment; and there
    are at most [n] entries. *)
Record loop_invariant (n : nat) (st : state) : Prop := {
  one_enumeration : inSevs st && inChans st = false;
  pending_comment : exists ls, comment_lines ls /\ rawComment st = comment_block ls;
  channels_read :
    Forall (fun i => exists key ls,
                key <> "CHANNEL_MAX" /\ comment_lines ls /\
                i = entry "channel" key (comment_block ls)) (chans st);
  severities_read :
    Forall (fun i => exists key ls,
                comment_lines ls /\ i = entry "severity" key (comment_block ls))
           (sevs st);
  entries_bound : length (chans st) + length (sevs st) <= n;
}.

Lemma loop_invariant_start : loop_invariant 0 start.
Proof.
  split; simpl; auto.
  exists []. split; [constructor | reflexivity].
Qed.

Lemma readLine_invariant (n : nat) (st : state) (line : string) :
  loop_invariant n st -> loop_invariant (S n) (readLine st line).
Proof.
  intros [Hone (ls & Hls & Hraw) Hch Hsv Hn].
  assert (Hnone : exists ls', comment_lines ls' /\ EmptyString = comment_block ls').
  { exists []. split; [constructor | reflexivity]. }
  assert (Hmore : HasPrefix (TrimSpace line) "//" = true ->
            exists ls', comment_lines ls' /\
              rawComment st +:+ TrimSpace line +:+ newline = comment_block ls').
  { intros Hc. exists (ls ++ [TrimSpace line]). split.
    - apply Forall_app. split; [exact Hls | repeat constructor; exact Hc].
    - rewrite comment_block_snoc, Hraw. reflexivity. }
  assert (Hst : loop_invariant (S n) st).
  { constructor; eauto. }
  unfold readLine.
  destruct (String.eqb (TrimSpace line) EmptyString); [exact Hst|].
  destruct (inSevs st) eqn:HS, (inChans st) eqn:HC; try discriminate Hone;
    cbn [negb andb].
  - (* in the severities *)
    destruct (HasPrefix (TrimSpace line) "}");
      [constructor; cbn; eauto|].
    destruct (HasPrefix (TrimSpace line) "//") eqn:Hc;
      [constructor; cbn; eauto|].
    destruct (HasPrefix (TrimSpace line) "reserved");
      [constructor; cbn; eauto|].
    constructor; cbn; eauto.
    + apply Forall_app. split; [exact Hsv|]. repeat constructor.
      eexists _, ls. split; [exact Hls | rewrite Hraw; reflexivity].
    + rewrite length_app. simpl. lia.
  - (* in the channels *)
    destruct (HasPrefix (TrimSpace line) "}");
      [constructor; cbn; eauto|].
    destruct (HasPrefix (TrimSpace line) "//") eqn:Hc;
      [constructor; cbn; eauto|].
    destruct (HasPrefix (TrimSpace line) "reserved");
      [constructor; cbn; eauto|].
    destruct (String.eqb _ "CHANNEL_MAX") eqn:Hmax; cbn [negb];
      [constructor; cbn; eauto|].
    constructor; cbn; eauto.
    + apply Forall_app. split; [exact Hch|]. repeat constructor.
      eexists _, ls. split; [|split; [exact Hls | rewrite Hraw; reflexivity]].
      intros Heq. rewrite Heq in Hmax. discriminate Hmax.
    + rewrite length_app. simpl. lia.
  - (* outside the enumerations *)
    destruct (HasPrefix (TrimSpace line) "enum Severity");
      [constructor; cbn; eauto|].
    destruct (HasPrefix (TrimSpace line) "enum Channel");
      [constructor; cbn; eauto|].
    exact Hst.
Qed.

Lemma readLines_invariant (lines : list string) :
  forall n st, loop_invariant n st ->
               loop_invariant (n + length lines) (fold_left readLine lines st).
Proof.
  induction lines as [|l lines IH]; intros n st Hst; simpl.
  - rewrite Nat.add_0_r. exact Hst.
  - replace (n + S (length lines)) with (S n + length lines) by lia.
    apply IH, readLine_invariant, Hst.
Qed.

(** X14: [readInput] fails only when the file cannot be read, with the error of
    [os.ReadFile] and no entry. Once the file is read there is no error, and
    every piece of the data between line feeds gives at most one entry, a
    severity or a channel: the entries are at most as many as the pieces. *)
Theorem readInput_at_most_one_entry_per_line (protoName : string) :
  (forall err, ReadFile protoName = FileError err ->
               readInput protoName = ([], [], Some err)) /\
  (forall protoData, ReadFile protoName = FileData protoData ->
     exists chs svs,
       readInput protoName = (chs, svs, None) /\
       length chs + length svs <= length (Split protoData newline)).
Proof.
  unfold readInput. split.
  - intros err ->. reflexivity.
  - intros protoData ->. eexists _, _. split; [reflexivity|].
    apply (entries_bound _ _ (readLines_invariant _ 0 start loop_invariant_start)).
Qed.

(** X15: what [readInput] returns: every channel was built for a key other than
    [CHANNEL_MAX], every severity for some key, and the raw comment of an
    entry is a block of trimmed lines that start with [//], each followed by a
    line feed. *)
Theorem readInput_entries (protoName : string) (chs svs : list info)
    (err : option string) :
  readInput protoName = (chs, svs, err) ->
  Forall (fun i => exists key ls,
              key <> "CHANNEL_MAX" /\ comment_lines ls /\
              i = entry "channel" key (comment_block ls)) chs /\
  Forall (fun i => exists key ls,
              comment_lines ls /\ i = entry "severity" key (comment_block ls)) svs.
Proof.
  unfold readInput. destruct (ReadFile protoName) as [protoData|e].
  - intros [= <- <- _].
    pose proof (readLines_invariant (Split protoData newline) 0 start
                  loop_invariant_start) as [_ _ Hch Hsv _].
    split; assumption.
  - intros [= <- <- _]. split; constructor.
Qed.

Lemma readLine_outside (line : string) :
  HasPrefix (TrimSpace line) "enum Severity" = false ->
  HasPrefix (TrimSpace line) "enum Channel" = false ->
  readLine start line = start.
Proof.
  intros H1 H2. unfold readLine. cbn [inSevs inChans start negb andb].
  rewrite H1, H2. destruct (String.eqb (TrimSpace line) EmptyString); reflexivity.
Qed.

(** X16: text outside the two enumerations is not read: a file in which no trimmed
    line starts with [enum Severity] or [enum Channel] gives no severity and
    no channel, and no error. *)
Theorem readInput_without_enumerations (protoName protoData : string) :
  ReadFile protoName = FileData protoData ->
  (forall line, line ∈ Split protoData newline ->
                HasPrefix (TrimSpace line) "enum Severity" = false /\
                HasPrefix (TrimSpace line) "enum Channel" = false) ->
  readInput protoName = ([], [], None).
Proof.
  intros Hfile Hlines. unfold readInput. rewrite Hfile.
  assert (fold_left readLine (Split protoData newline) start = start) as ->;
    [|reflexivity].
  induction (Split protoData newline) as [|l lines IH]; [reflexivity|].
  cbn [fold_left].
  destruct (Hlines l (list_elem_of_here _ _)) as [H1 H2].
  rewrite (readLine_outside l H1 H2). apply IH.
  intros line Hin. apply Hlines, list_elem_of_further, Hin.
Qed.


Lemma comment_line_kept (st : state) (line : string) :
  inSevs st && inChans st = false ->
  inSevs st || inChans st = true ->
  HasPrefix (TrimSpace line) "//" = true ->
  readLine st line
  = mkState (inSevs st) (inChans st) (rawComment st +:+ TrimSpace line +:+ newline)
            (chans st) (sevs st).
Proof.
  intros Hone Hin Hc. unfold readLine.
  destruct (TrimSpace line) as [|c l]; [discriminate Hc|].
  cbn [String.eqb].
  assert (HasPrefix (String c l) "}" = false) as Hbrace.
  { cbn in Hc |- *. apply andb_true_iff in Hc as [Hslash _].
    apply Ascii.eqb_eq in Hslash as ->. reflexivity. }
  rewrite Hbrace, Hc.
  destruct (inSevs st), (inChans st); try discriminate; reflexivity.
Qed.

Lemma comment_lines_kept (st : state) (cs : list string) :
  inSevs st && inChans st = false ->
  inSevs st || inChans st = true ->
  Forall (fun c => HasPrefix (TrimSpace c) "//" = true) cs ->
  fold_left readLine cs st
  = mkState (inSevs st) (inChans st)
            (rawComment st +:+ comment_block (TrimSpace <$> cs)) (chans st) (sevs st).
Proof.
  intros Hone Hin Hcs. revert st Hone Hin.
  induction Hcs as [|c cs Hc _ IH]; intros st Hone Hin.
  - cbn. rewrite append_nil_r. destruct st; reflexivity.
  - cbn [fold_left]. rewrite (comment_line_kept st c Hone Hin Hc).
    rewrite IH by assumption. cbn. rewrite !append_assoc. reflexivity.
Qed.

(** X17: comments go to the next key: inside an enumeration and with no comment
    pending, comment lines followed by the line of a key (a line that is not
    blank and starts with none of [}], [//] and [reserved]) add one entry for
    the first word of the key line, a severity in the severities and a channel
    in the channels unless the word is [CHANNEL_MAX]; its raw comment is the
    block of these comment lines, trimmed and in order, and no comment is
    pending afterwards. *)
Theorem readLines_comments_then_key (st : state) (cs : list string) (line : string) :
  inSevs st && inChans st = false ->
  inSevs st || inChans st = true ->
  rawComment st = EmptyString ->
  Forall (fun c => HasPrefix (TrimSpace c) "//" = true) cs ->
  TrimSpace line <> EmptyString ->
  HasPrefix (TrimSpace line) "}" = false ->
  HasPrefix (TrimSpace line) "//" = false ->
  HasPrefix (TrimSpace line) "reserved" = false ->
  let key := match Split (TrimSpace line) " " with k :: _ => k | [] => EmptyString end in
  let raw := comment_block (TrimSpace <$> cs) in
  fold_left readLine (cs ++ [line]) st
  = mkState (inSevs st) (inChans st) EmptyString
            (if inChans st && negb (String.eqb key "CHANNEL_MAX")
             then chans st ++ [entry "channel" key raw] else chans st)
            (if inSevs st then sevs st ++ [entry "severity" key raw] else sevs st).
Proof.
  intros Hone Hin Hraw Hcs Hne Hb Hc Hr key raw.
  rewrite fold_left_app, (comment_lines_kept st cs Hone Hin Hcs), Hraw.
  cbn [fold_left]. unfold readLine.
  cbn [inSevs inChans rawComment chans sevs].
  apply String.eqb_neq in Hne. rewrite Hne, Hb, Hc, Hr.
  change (EmptyString +:+ comment_block (TrimSpace <$> cs)) with raw.
  fold key.
  destruct (inSevs st), (inChans st); try discriminate; reflexivity.
Qed.

End gen.

(** ** A file, with the string functions on ASCII *)

Definition is_space (c : Ascii.ascii) : bool :=
  let n := Ascii.nat_of_ascii c in (n =? 32)%nat || ((9 <=? n)%nat && (n <=? 13)%nat).

Fixpoint trim_left (s : string) : string :=
  match s with
  | String c s' => if is_space c then trim_left s' else s
  | EmptyString => EmptyString
  end.

Fixpoint trim_right (s : string) : string :=
  match s with
  | String c s' =>
      let r := trim_right s' in
      if is_space c && String.eqb r EmptyString then EmptyString else String c r
  | EmptyString => EmptyString
  end.

Definition TrimSpace_ascii (s : string) : string := trim_right (trim_left s).

Definition lower (c : Ascii.ascii) : Ascii.ascii :=
  let n := Ascii.nat_of_ascii c in
  if (65 <=? n)%nat && (n <=? 90)%nat then Ascii.ascii_of_nat (n + 32) else c.

Definition upper (c : Ascii.ascii) : Ascii.ascii :=
  let n := Ascii.nat_of_ascii c in
  if (97 <=? n)%nat && (n <=? 122)%nat then Ascii.ascii_of_nat (n - 32) else c.

Fixpoint map_bytes (f : Ascii.ascii -> Ascii.ascii) (s : string) : string :=
  match s with
  | String c s' => String (f c) (map_bytes f s')
  | EmptyString => EmptyString
  end.

Definition ToLower_ascii : string -> string := map_bytes lower.
Definition ToUpper_ascii : string -> string := map_bytes upper.

Fixpoint title_from (first : bool) (s : string) : string :=
  match s with
  | String c s' => String (if first then upper c else c) (title_from (is_space c) s')
  | EmptyString => EmptyString
  end.

Definition Title_ascii : string -> string := title_from true.

Definition lines (ls : list string) : string :=
  fold_right (fun l acc => l +:+ newline +:+ acc) EmptyString ls.

Definition logpb_proto : string :=
  lines ["package cockroach.util.log;";
         "enum Severity {";
         "  // UNKNOWN is populated into decoded log entries.";
         "  UNKNOWN = 0;";
         "  // INFO is used for informational messages.";
         "  INFO = 1;";
         "  reserved 5;";
         "}";
         "";
         "enum Channel {";
         "  // DEV is used during development.";
         "  DEV = 0;";
         "  // SQL_EXEC is used to report SQL execution.";
         "  SQL_EXEC = 1;";
         "  CHANNEL_MAX = 2;";
         "}"].

Definition plain_proto : string :=
  lines ["message Entry {"; "  // enum Severity is declared elsewhere."; "}"].

Definition one_file (data : string) (name : string) : fileResult :=
  if String.eqb name "log.proto" then FileData data
  else FileError "open: no such file or directory".

Definition readInput_ascii (data : string) : string -> list info * list info * option string :=
  readInput TrimSpace_ascii ToLower_ascii ToUpper_ascii Title_ascii (one_file data).

Example readInput_logpb :
  let '(chs, svs, err) := readInput_ascii logpb_proto "log.proto" in
  NAME <$> chs = ["DEV"; "SQL_EXEC"] /\
  Name <$> chs = ["Dev"; "SqlExec"] /\
  NAME <$> svs = ["UNKNOWN"; "INFO"] /\
  NameLower <$> svs = ["unknown"; "info"] /\
  Comment <$> chs
  = ["// The `DEV` channel is used during development." +:+ newline;
     "// The `SQL_EXEC` channel is used to report SQL execution." +:+ newline] /\
  PComment <$> chs
  = ["The `DEV` channel is used during development." +:+ newline;
     "The `SQL_EXEC` channel is used to report SQL execution." +:+ newline] /\
  err = None.
Proof. vm_compute. repeat split; reflexivity. Qed.

Lemma readInput_entries_witness :
  Forall (fun i => exists key ls,
              key <> "CHANNEL_MAX" /\ comment_lines ls /\
              i = entry ToLower_ascii ToUpper_ascii Title_ascii "channel" key
                        (comment_block ls))
         (readInput_ascii logpb_proto "log.proto").1.1 /\
  Forall (fun i => exists key ls,
              comment_lines ls /\
              i = entry ToLower_ascii ToUpper_ascii Title_ascii "severity" key
                        (comment_block ls))
         (readInput_ascii logpb_proto "log.proto").1.2.
Proof.
  refine (readInput_entries TrimSpace_ascii ToLower_ascii ToUpper_ascii Title_ascii
            (one_file logpb_proto) "log.proto" _ _
            (readInput_ascii logpb_proto "log.proto").2 _).
  unfold readInput_ascii.
  destruct (readInput _ _ _ _ _ _) as [[chs svs] err]. reflexivity.
Defined.

Lemma readInput_without_enumerations_witness :
  readInput_ascii plain_proto "log.proto" = ([], [], None).
Proof.
  refine (readInput_without_enumerations TrimSpace_ascii ToLower_ascii ToUpper_ascii
            Title_ascii (one_file plain_proto) "log.proto" plain_proto _ _).
  - reflexivity.
  - apply Forall_forall. vm_compute. repeat constructor.
Defined.

Lemma readLines_comments_then_key_witness :
  fold_left (readLine TrimSpace_ascii ToLower_ascii ToUpper_ascii Title_ascii)
            (["  // DEV is used"; "  // during development."] ++ ["  DEV = 0;"])
            (mkState false true EmptyString [] [])
  = mkState false true EmptyString
            [entry ToLower_ascii ToUpper_ascii Title_ascii "channel" "DEV"
                   ("// DEV is used" +:+ newline +:+
                    "// during development." +:+ newline)]
            [].
Proof.
  refine (readLines_comments_then_key TrimSpace_ascii ToLower_ascii ToUpper_ascii
            Title_ascii (mkState false true EmptyString [] [])
            ["  // DEV is used"; "  // during development."] "  DEV = 0;"
            _ _ _ _ _ _ _ _); try reflexivity.
  - repeat constructor.
  - discriminate.
Defined.

End gen.
